(** * Solar dashboard: ranking and summary statistics

    A shallow embedding of [src/app/utils.py] ([plot_boxplot], [top_regions])
    and [src/app/main.py] ([display_metrics], [display_main_content]),
    together with the fragment of the data-frame library these functions
    call: column lookup, group-by with mean, descending sort, [head],
    [reset_index] and the assignment to [columns].

    Conventions of the embedding.

    - A numeric cell is [option V]: [None] is the library's missing value
      (NaN).  The arithmetic of [V] is an interface ([Numeric]) with two
      instances: exact rationals ([Q]) and IEEE binary64 ([float], the
      kernel's primitive floats), the type the library really computes in.
      What depends on comparisons alone is stated for any ordered [V];
      what depends on the values of sums and means is stated for exact
      rationals, with the rounding of binary64 shown on examples.
    - A table is loaded by [load_data] with the default positional index
      [0 .. len-1] and unique column labels; its columns are numeric or hold
      text (dtype object).
    - The library's default sorting algorithm (kind "quicksort") is a
      parameter [argsort] of the development.  The library documents it as
      returning the indices that sort the array, and documents that only the
      kinds "mergesort" and "stable" keep ties in their original order;
      [argsort_spec] is that contract.
    - Python's [int] is [Z]; exceptions are the [Err] results of [result]. *)

From Stdlib Require Import String Ascii.
From Stdlib Require Import ZArith QArith Qreduction Floats Bool List.
From Stdlib Require Import Lia Lqa Permutation Sorted.
Import ListNotations.

Set Implicit Arguments.

(** ** Exceptions *)

Inductive error : Type :=
| KeyError (name : string)      (* column not found *)
| ValueError (name : string)    (* cannot insert [name], already exists *)
| TypeError (name : string).    (* aggregation of a non-numeric column *)

Inductive result (A : Type) : Type :=
| Ok (a : A)
| Err (e : error).

Arguments Ok {A} a.
Arguments Err {A} e.

Definition bind {A B : Type} (r : result A) (k : A -> result B) : result B :=
  match r with
  | Ok a => k a
  | Err e => Err e
  end.

Notation "x <- r ;; k" := (bind r (fun x => k))
  (at level 61, r at next level, right associativity).

Definition is_key_error {A : Type} (r : result A) : bool :=
  match r with
  | Err (KeyError _) => true
  | _ => false
  end.

Definition is_ok {A : Type} (r : result A) : bool :=
  match r with
  | Ok _ => true
  | Err _ => false
  end.

(** ** Strings *)

(** Python's [needle in hay] on two strings: substring test. *)
Fixpoint contains (needle hay : string) : bool :=
  if String.prefix needle hay then true
  else match hay with
       | EmptyString => false
       | String _ rest => contains needle rest
       end.

(** ** Numbers *)

Class Numeric (V : Type) : Type := {
  num_zero : V;
  num_add : V -> V -> V;
  num_sub : V -> V -> V;
  (** division of a sum by a count *)
  num_div : V -> nat -> V;
  num_leb : V -> V -> bool
}.

Definition num_eqb {V : Type} `{Numeric V} (x y : V) : bool :=
  num_leb x y && num_leb y x.

(** The order laws that the comparison of non-missing numbers obeys.
    Exact rationals obey them.  In binary64 the comparison fails them at
    NaN alone, which stands for the missing value and is [None] here; no
    instance is given for binary64, and what is stated under these laws
    about the values of sums and means is stated for exact rationals. *)
Class NumericOrder (V : Type) `{Numeric V} : Prop := {
  num_leb_total : forall x y : V, num_leb x y = true \/ num_leb y x = true;
  num_leb_trans : forall x y z : V,
      num_leb x y = true -> num_leb y z = true -> num_leb x z = true
}.

Arguments NumericOrder V {H}.

(** Exact rationals; quotients are kept in lowest terms. *)
#[export] Instance Numeric_Q : Numeric Q := {
  num_zero := 0%Q;
  num_add := Qplus;
  num_sub := Qminus;
  num_div := fun s n => Qred (s / inject_Z (Z.of_nat n));
  num_leb := Qle_bool
}.

(** IEEE 754 binary64, the library's float64. *)
#[export] Instance Numeric_float : Numeric float := {
  num_zero := PrimFloat.zero;
  num_add := PrimFloat.add;
  num_sub := PrimFloat.sub;
  num_div := fun s n => PrimFloat.div s (PrimFloat.of_uint63 (Uint63.of_Z (Z.of_nat n)));
  num_leb := PrimFloat.leb
}.

(** ** Generic list operations of the library *)

(** [head(n)]: the first [n] rows; for negative [n], all rows except the
    last [|n|]. *)
Definition head {A : Type} (n : Z) (l : list A) : list A :=
  if (0 <=? n)%Z then firstn (Z.to_nat n) l
  else firstn (length l - Z.to_nat (- n)) l.

(** [take(indices)]: the rows at the given positions, in that order. *)
Definition take {A : Type} (idx : list nat) (l : list A) : list A :=
  flat_map (fun i => match nth_error l i with
                     | Some x => [x]
                     | None => []
                     end) idx.

(** The contract of [argsort]: the result is a permutation of the positions
    and lists the values in non-decreasing order whenever the comparison is
    a total preorder.  Nothing is promised about the order of ties. *)
Definition argsort_spec
  (argsort : forall A : Type, (A -> A -> bool) -> list A -> list nat) : Prop :=
  forall (A : Type) (le : A -> A -> bool) (l : list A),
    Permutation (argsort A le l) (seq 0 (length l)) /\
    ((forall x y, le x y = true \/ le y x = true) ->
     (forall x y z, le x y = true -> le y z = true -> le x z = true) ->
     StronglySorted (fun x y => le x y = true) (take (argsort A le l) l)).

(** Insertion sort on a key, used where the outcome does not depend on the
    algorithm (unique group keys, order statistics). *)
Section Insertion.
Variables (A : Type) (le : A -> A -> bool).

Fixpoint insert (x : A) (l : list A) : list A :=
  match l with
  | [] => [x]
  | y :: t => if le x y then x :: y :: t else y :: insert x t
  end.

Definition isort (l : list A) : list A := fold_right insert [] l.

(** The same, except that an element is placed after the elements equal
    to it: ties come out in the reverse of their input order. *)
Fixpoint insert_after (x : A) (l : list A) : list A :=
  match l with
  | [] => [x]
  | y :: t => if le y x then y :: insert_after x t else x :: y :: t
  end.

Definition isort_after (l : list A) : list A := fold_right insert_after [] l.
End Insertion.

(** Two sorting procedures that meet [argsort_spec]: one keeps ties in their
    input order at every length; the other does so only on short arrays, as
    a quicksort that finishes small partitions by insertion does, and
    reverses ties on arrays of more than 17 elements. *)
Definition on_snd {A : Type} (le : A -> A -> bool) (p q : nat * A) : bool :=
  le (snd p) (snd q).

Definition enumerate {A : Type} (l : list A) : list (nat * A) :=
  combine (seq 0 (length l)) l.

Definition stable_argsort (A : Type) (le : A -> A -> bool) (l : list A) : list nat :=
  map fst (isort (on_snd le) (enumerate l)).

Definition unstable_argsort (A : Type) (le : A -> A -> bool) (l : list A) : list nat :=
  if (17 <? length l)%nat
  then map fst (isort_after (on_snd le) (enumerate l))
  else stable_argsort le l.

(** ** Tables *)

Section Frames.
Context {V : Type} `{Numeric V}.

(** Index labels and group keys: a position of the default index, a
    number, or a text. *)
Inductive label : Type :=
| LPos (i : nat)
| LNum (v : V)
| LStr (s : string).

Definition label_eqb (a b : label) : bool :=
  match a, b with
  | LPos i, LPos j => Nat.eqb i j
  | LNum x, LNum y => num_eqb x y
  | LStr s, LStr t => String.eqb s t
  | _, _ => false
  end.

(** The order in which group keys are arranged; the keys of one column
    are all numbers or all texts. *)
Definition label_leb (a b : label) : bool :=
  match a, b with
  | LPos i, LPos j => Nat.leb i j
  | LPos _, _ => true
  | LNum _, LPos _ => false
  | LNum x, LNum y => num_leb x y
  | LNum _, LStr _ => true
  | LStr s, LStr t => String.leb s t
  | LStr _, _ => false
  end.

Inductive column : Type :=
| NumCol (cells : list (option V))
| ObjCol (cells : list (option string)).

Definition DataFrame : Type := list (string * column).

Definition columns (df : DataFrame) : list string := map fst df.

(** [name in df.columns] *)
Definition in_columns (name : string) (df : DataFrame) : bool :=
  existsb (String.eqb name) (columns df).

Fixpoint get_column (df : DataFrame) (name : string) : option column :=
  match df with
  | [] => None
  | (c, col) :: rest => if String.eqb name c then Some col else get_column rest name
  end.

Definition column_length (c : column) : nat :=
  match c with
  | NumCol cells => length cells
  | ObjCol cells => length cells
  end.

Definition column_labels (c : column) : list (option label) :=
  match c with
  | NumCol cells => map (option_map LNum) cells
  | ObjCol cells => map (option_map LStr) cells
  end.

(** One labelled column of values: a Series, or a DataFrame restricted to
    a single column.  [index_name] is [None] for the default index. *)
Inductive fdata : Type :=
| NumData (rows : list (label * option V))
| ObjData (rows : list (label * option string)).

Record Frame1 : Type := {
  index_name : option string;
  col_name : string;
  data : fdata
}.

(** A table with two columns, the first holding what was the index. *)
Record TopFrame : Type := {
  tf_columns : list string;
  tf_data : fdata
}.

Definition fdata_length (d : fdata) : nat :=
  match d with
  | NumData rows => length rows
  | ObjData rows => length rows
  end.

(** *** Aggregation *)

(** [mean(skipna=True)] of the non-missing values: NaN when there is
    none. *)
Definition mean (l : list V) : option V :=
  match l with
  | [] => None
  | _ :: _ => Some (num_div (fold_left num_add l num_zero) (length l))
  end.

Definition dropna {A : Type} (cells : list (option A)) : list A :=
  flat_map (fun c => match c with Some x => [x] | None => [] end) cells.

(** Group-by keeps, per group, a running sum, the compensation term of
    Kahan's summation for the rounding error of that sum, and the count of
    the values seen; the groups stand in the order of their first row, and
    a missing value adds nothing. *)
Record running : Type := {
  sumx : V;
  compensation : V;
  nobs : nat
}.

Definition start : running :=
  {| sumx := num_zero; compensation := num_zero; nobs := 0%nat |}.

(** One row of the library's [group_mean]:
    [y = val - compensation; t = sumx + y; compensation = t - sumx - y;
    sumx = t], where a compensation that is not a number (it compares
    unequal to itself) is replaced by zero. *)
Definition observe (v : option V) (sc : running) : running :=
  match v with
  | Some val =>
      let y := num_sub val (compensation sc) in
      let t := num_add (sumx sc) y in
      let c := num_sub (num_sub t (sumx sc)) y in
      {| sumx := t;
         compensation := if num_eqb c c then c else num_zero;
         nobs := S (nobs sc) |}
  | None => sc
  end.

Fixpoint add_obs (g : label) (v : option V) (acc : list (label * running))
  : list (label * running) :=
  match acc with
  | [] => [(g, observe v start)]
  | (g', sc) :: rest =>
      if label_eqb g' g then (g', observe v sc) :: rest
      else (g', sc) :: add_obs g v rest
  end.

(** Rows whose key is missing belong to no group ([dropna=True]). *)
Definition accumulate (rows : list (option label * option V))
  : list (label * running) :=
  fold_left (fun acc kv => match fst kv with
                           | Some g => add_obs g (snd kv) acc
                           | None => acc
                           end) rows [].

(** The mean of a group is its running sum divided by its count; a group
    without a value, and a quotient that is not a number, give the missing
    value. *)
Definition group_mean (sc : running) : option V :=
  match nobs sc with
  | O => None
  | S _ =>
      let m := num_div (sumx sc) (nobs sc) in
      if num_eqb m m then Some m else None
  end.

Definition on_fst {B : Type} (p q : label * B) : bool :=
  label_leb (fst p) (fst q).

(** [df.groupby(key)[column].mean()]: the groups come out in ascending key
    order ([sort=True]). *)
Definition groupby_mean (df : DataFrame) (key column : string) : result Frame1 :=
  match get_column df key with
  | None => Err (KeyError key)
  | Some kc =>
      match get_column df column with
      | None => Err (KeyError column)
      | Some (ObjCol _) => Err (TypeError column)
      | Some (NumCol vs) =>
          let groups := isort on_fst (accumulate (combine (column_labels kc) vs)) in
          Ok {| index_name := Some key;
                col_name := column;
                data := NumData (map (fun g => (fst g, group_mean (snd g))) groups) |}
      end
  end.

(** [df[[column]]]: the table restricted to one column, under the default
    index. *)
Definition with_positions {A : Type} (cells : list A) : list (label * A) :=
  combine (map LPos (seq 0 (length cells))) cells.

Definition select_column (df : DataFrame) (column : string) : result Frame1 :=
  match get_column df column with
  | None => Err (KeyError column)
  | Some (NumCol cells) =>
      Ok {| index_name := None; col_name := column;
            data := NumData (with_positions cells) |}
  | Some (ObjCol cells) =>
      Ok {| index_name := None; col_name := column;
            data := ObjData (with_positions cells) |}
  end.

(** *** Sorting *)

Variable argsort : forall A : Type, (A -> A -> bool) -> list A -> list nat.

Definition non_missing {K A : Type} (rows : list (K * option A)) : list (K * A) :=
  flat_map (fun r => match snd r with
                     | Some x => [(fst r, x)]
                     | None => []
                     end) rows.

Definition missing {K A : Type} (rows : list (K * option A)) : list (K * option A) :=
  filter (fun r => match snd r with Some _ => false | None => true end) rows.

(** [sort_values(ascending=False)] with the default [kind] and
    [na_position='last']: the non-missing rows are reversed, sorted
    ascending by [argsort], and reversed again; the rows with a missing
    value follow in their original order. *)
Definition sort_rows_desc {K A : Type} (le : A -> A -> bool)
  (rows : list (K * option A)) : list (K * option A) :=
  let nn := rev (non_missing rows) in
  let order := argsort le (map snd nn) in
  map (fun r => (fst r, Some (snd r))) (rev (take order nn)) ++ missing rows.

Definition map_data (fn : forall A : Type, (A -> A -> bool) -> list (label * option A) -> list (label * option A))
  (d : fdata) : fdata :=
  match d with
  | NumData rows => NumData (fn V num_leb rows)
  | ObjData rows => ObjData (fn string String.leb rows)
  end.

Definition sort_values_desc (f : Frame1) : Frame1 :=
  {| index_name := index_name f;
     col_name := col_name f;
     data := map_data (fun A le rows => sort_rows_desc le rows) (data f) |}.

Definition frame_head (n : Z) (f : Frame1) : Frame1 :=
  {| index_name := index_name f;
     col_name := col_name f;
     data := map_data (fun A _ rows => head n rows) (data f) |}.

(** [reset_index()]: the index becomes the first column, under its name, or
    under "index" ("level_0" when a column "index" exists) when it has
    none; a column of that name must not exist yet. *)
Definition reset_index (f : Frame1) : result TopFrame :=
  let name := match index_name f with
              | Some nm => nm
              | None => if String.eqb (col_name f) "index" then "level_0"%string
                        else "index"%string
              end in
  if String.eqb name (col_name f) then Err (ValueError name)
  else Ok {| tf_columns := [name; col_name f]; tf_data := data f |}.

(** [top_df.columns = names] *)
Definition set_columns (names : list string) (f : TopFrame) : TopFrame :=
  {| tf_columns := names; tf_data := tf_data f |}.

(** *** utils.py *)

(** The renaming of [top_regions]:
    ['Region' if 'Region' in col else 'Index' if 'index' in col else column]. *)
Definition rename_column (column col : string) : string :=
  if contains "Region" col then "Region"%string
  else if contains "index" col then "Index"%string
  else column.

Definition top_regions (df : DataFrame) (column : string) (n : Z) : result TopFrame :=
  top_df <- (if in_columns "Region" df
             then s <- groupby_mean df "Region" column ;;
                  reset_index (frame_head n (sort_values_desc s))
             else f <- select_column df column ;;
                  reset_index (frame_head n (sort_values_desc f))) ;;
  Ok (set_columns (map (rename_column column) (tf_columns top_df)) top_df).

(** What the figure is asked to show; drawing is the charting library's. *)
Record BoxPlot : Type := {
  box_x : option string;
  box_y : string;
  box_color : option string;
  box_title : string;
  box_showlegend : bool
}.

(** Python's truth value of an optional string. *)
Definition truthy (x : option string) : bool :=
  match x with
  | Some s => negb (String.eqb s "")
  | None => false
  end.

Definition plot_boxplot (df : DataFrame) (y_column : string) (x_column : option string)
  : BoxPlot :=
  let x_column :=
    if truthy x_column && negb (match x_column with
                                | Some x => in_columns x df
                                | None => false
                                end)
    then None else x_column in
  {| box_x := x_column;
     box_y := y_column;
     box_color := if truthy x_column then x_column else None;
     box_title := (y_column ++ " Distribution")%string;
     box_showlegend := if truthy x_column then true else false |}.

(** *** main.py *)

(** [max(skipna=True)] and [min(skipna=True)]. *)
Definition maximum (l : list V) : option V :=
  match l with
  | [] => None
  | x :: t => Some (fold_left (fun m y => if num_leb m y then y else m) t x)
  end.

Definition minimum (l : list V) : option V :=
  match l with
  | [] => None
  | x :: t => Some (fold_left (fun m y => if num_leb y m then y else m) t x)
  end.

(** [median(skipna=True)]: the middle value of the sorted data, the mean
    of the two middle values for an even count. *)
Definition median (l : list V) : option V :=
  let s := isort num_leb l in
  let n := length s in
  match n with
  | O => None
  | S _ =>
      if Nat.even n
      then match nth_error s (n / 2 - 1), nth_error s (n / 2) with
           | Some a, Some b => Some (num_div (num_add a b) 2)
           | _, _ => None
           end
      else nth_error s (n / 2)
  end.

(** The four scalars that [display_metrics] formats into its cards. *)
Record Metrics : Type := {
  average : option V;
  med : option V;
  max_value : option V;
  min_value : option V
}.

Definition display_metrics (df : DataFrame) (kpi_column : string) : result Metrics :=
  match get_column df kpi_column with
  | None => Err (KeyError kpi_column)
  | Some (ObjCol _) => Err (TypeError kpi_column)
  | Some (NumCol cells) =>
      let xs := dropna cells in
      Ok {| average := mean xs;
            med := median xs;
            max_value := maximum xs;
            min_value := minimum xs |}
  end.

(** The parts of the page that [display_main_content] computes: the box
    plot and the ranked table.  (The third part, [df.describe()], takes
    the table alone.) *)
Record MainContent : Type := {
  boxplot_fig : BoxPlot;
  top_df : result TopFrame
}.

Definition display_main_content (df : DataFrame) (kpi_column : string)
  (x_column : option string) : MainContent :=
  {| boxplot_fig := plot_boxplot df kpi_column x_column;
     top_df := top_regions df kpi_column 10 |}.

End Frames.

Arguments label V : clear implicits.
Arguments column V : clear implicits.
Arguments DataFrame V : clear implicits.
Arguments fdata V : clear implicits.
Arguments running V : clear implicits.
Arguments Frame1 V : clear implicits.
Arguments TopFrame V : clear implicits.
Arguments Metrics V : clear implicits.
Arguments MainContent V : clear implicits.

(** ** The words of the specification *)

Section Specification.
Context {V : Type} `{Numeric V}.

(** Non-increasing order of values, the missing ones last. *)
Definition desc_le {A : Type} (le : A -> A -> bool) (a b : option A) : Prop :=
  match a, b with
  | Some x, Some y => le y x = true
  | _, None => True
  | None, Some _ => False
  end.

Definition desc_leb {A : Type} (le : A -> A -> bool) (a b : option A) : bool :=
  match a, b with
  | Some x, Some y => le y x
  | _, None => true
  | None, Some _ => false
  end.

(** The distinct groups of a key column, each under the key of its first
    row, in the order in which they are first encountered. *)
Definition seen_add (g : label V) (seen : list (label V)) : list (label V) :=
  if existsb (fun g' => label_eqb g' g) seen then seen else seen ++ [g].

Definition distinct_groups (keys : list (option (label V))) : list (label V) :=
  fold_left (fun seen g => seen_add g seen) (dropna keys) [].

(** Two keys of the list fall in different groups. *)
Definition separated (l : list (label V)) : Prop :=
  ForallOrdPairs (fun a b => label_eqb a b = false) l.

(** The values of the ranking column in the rows of group [g], the missing
    ones dropped. *)
Definition in_group (g : label V) (kv : option (label V) * option V) : bool :=
  match fst kv with
  | Some k => label_eqb g k
  | None => false
  end.

Definition group_values (g : label V) (rows : list (option (label V) * option V)) : list V :=
  dropna (map snd (filter (in_group g) rows)).

(** The series of group means: one entry per distinct group, holding the
    mean of the group's values. *)
Definition group_means (rows : list (option (label V) * option V))
  : list (label V * option V) :=
  map (fun g => (g, mean (group_values g rows))) (distinct_groups (map fst rows)).

(** The running sum, compensation and count of a group after its values
    were added up in row order. *)
Definition sum_count (l : list V) : running V :=
  fold_left (fun sc x => observe (Some x) sc) l start.

(** Descending order by a stable sort: rows with equal values keep their
    original relative order. *)
Definition stable_sort_desc {K A : Type} (le : A -> A -> bool)
  (rows : list (K * option A)) : list (K * option A) :=
  isort (fun p q => desc_leb le (snd p) (snd q)) rows.

(** The labels of a ranked table, as the specification names them. *)
Definition expected_columns (grouped : bool) (column : string) : list string :=
  [if grouped then "Region"%string else "Index"%string; column].

End Specification.

(** ** The data of the two branches of [top_regions] *)

Section Branch.
Context {V : Type} `{Numeric V}.
Variable argsort : forall A : Type, (A -> A -> bool) -> list A -> list nat.

(** The name that [reset_index] gives the default index. *)
Definition default_index_name (column : string) : string :=
  if String.eqb column "index" then "level_0"%string else "index"%string.

(** The ranking column under the default index, sorted. *)
Definition sorted_column (c : column V) : fdata V :=
  match c with
  | NumCol cells => NumData (sort_rows_desc argsort num_leb (with_positions cells))
  | ObjCol cells => ObjData (sort_rows_desc argsort String.leb (with_positions cells))
  end.

Definition head_data (n : Z) (d : fdata V) : fdata V :=
  match d with
  | NumData rows => NumData (head n rows)
  | ObjData rows => ObjData (head n rows)
  end.

(** The group means as group-by returns them, in ascending key order. *)
Definition mean_series (kc : column V) (vs : list (option V)) : list (label V * option V) :=
  map (fun g => (fst g, group_mean (snd g)))
      (isort on_fst (accumulate (combine (column_labels kc) vs))).

End Branch.

(** ** Objects and references

    The same computation with the objects of the run in a store: every call
    of the library returns a new object, a group-by object refers to the
    table it groups, and the assignment to [columns] updates an object in
    place. *)

Section Store.
Context {V : Type} `{Numeric V}.
Variable argsort : forall A : Type, (A -> A -> bool) -> list A -> list nat.

Definition ref : Type := nat.

Inductive pobject : Type :=
| PDataFrame (df : DataFrame V)
| PGroupBy (source : ref) (key : string) (selection : option string)
| PFrame1 (f : Frame1 V)
| PTopFrame (t : TopFrame V).

Definition store : Type := list pobject.

(** A computation returns a value or raises, and leaves a store. *)
Definition M (A : Type) : Type := store -> result A * store.

Definition ret {A : Type} (a : A) : M A := fun st => (Ok a, st).

Definition raise {A : Type} (e : error) : M A := fun st => (Err e, st).

Definition bindM {A B : Type} (m : M A) (k : A -> M B) : M B :=
  fun st => match m st with
            | (Ok a, st') => k a st'
            | (Err e, st') => (Err e, st')
            end.

Definition lift {A : Type} (r : result A) : M A :=
  match r with
  | Ok a => ret a
  | Err e => raise e
  end.

Definition alloc (o : pobject) : M ref :=
  fun st => (Ok (length st), st ++ [o]).

Fixpoint update (r : ref) (o : pobject) (st : store) : store :=
  match st, r with
  | [], _ => []
  | _ :: rest, O => o :: rest
  | x :: rest, S r' => x :: update r' o rest
  end.

Definition write (r : ref) (o : pobject) : M unit :=
  fun st => (Ok tt, update r o st).

Definition read_dataframe (r : ref) : M (DataFrame V) :=
  fun st => match nth_error st r with
            | Some (PDataFrame df) => (Ok df, st)
            | _ => (Err (TypeError "DataFrame"), st)
            end.

Definition read_frame1 (r : ref) : M (Frame1 V) :=
  fun st => match nth_error st r with
            | Some (PFrame1 f) => (Ok f, st)
            | _ => (Err (TypeError "Series"), st)
            end.

Definition read_topframe (r : ref) : M (TopFrame V) :=
  fun st => match nth_error st r with
            | Some (PTopFrame t) => (Ok t, st)
            | _ => (Err (TypeError "DataFrame"), st)
            end.

(** [df.groupby(key)], [gb[column]] and [sgb.mean()]. *)
Definition groupby_st (r : ref) (key : string) : M ref :=
  bindM (read_dataframe r) (fun df =>
  if in_columns key df then alloc (PGroupBy r key None)
  else raise (KeyError key)).

Definition getitem_st (gb : ref) (column : string) : M ref :=
  fun st => match nth_error st gb with
            | Some (PGroupBy src key _) =>
                bindM (read_dataframe src) (fun df =>
                if in_columns column df then alloc (PGroupBy src key (Some column))
                else raise (KeyError column)) st
            | _ => (Err (TypeError "GroupBy"), st)
            end.

Definition mean_st (sgb : ref) : M ref :=
  fun st => match nth_error st sgb with
            | Some (PGroupBy src key (Some column)) =>
                bindM (read_dataframe src) (fun df =>
                bindM (lift (groupby_mean df key column)) (fun s =>
                alloc (PFrame1 s))) st
            | _ => (Err (TypeError "SeriesGroupBy"), st)
            end.

Definition select_column_st (r : ref) (column : string) : M ref :=
  bindM (read_dataframe r) (fun df =>
  bindM (lift (select_column df column)) (fun f =>
  alloc (PFrame1 f))).

Definition sort_values_st (r : ref) : M ref :=
  bindM (read_frame1 r) (fun f => alloc (PFrame1 (sort_values_desc argsort f))).

Definition head_st (n : Z) (r : ref) : M ref :=
  bindM (read_frame1 r) (fun f => alloc (PFrame1 (frame_head n f))).

Definition reset_index_st (r : ref) : M ref :=
  bindM (read_frame1 r) (fun f =>
  bindM (lift (reset_index f)) (fun t =>
  alloc (PTopFrame t))).

Definition set_columns_st (r : ref) (names : list string) : M unit :=
  bindM (read_topframe r) (fun t => write r (PTopFrame (set_columns names t))).

(** [top_regions], statement by statement. *)
Definition top_regions_st (df : ref) (column : string) (n : Z) : M ref :=
  bindM (read_dataframe df) (fun table =>
  bindM (if in_columns "Region" table
         then bindM (groupby_st df "Region") (fun gb =>
              bindM (getitem_st gb column) (fun sgb =>
              bindM (mean_st sgb) (fun s =>
              bindM (sort_values_st s) (fun sorted =>
              bindM (head_st n sorted) (fun top =>
              reset_index_st top)))))
         else bindM (select_column_st df column) (fun f =>
              bindM (sort_values_st f) (fun sorted =>
              bindM (head_st n sorted) (fun top =>
              reset_index_st top)))) (fun top_df =>
  bindM (read_topframe top_df) (fun t =>
  bindM (set_columns_st top_df (map (rename_column column) (tf_columns t))) (fun _ =>
  ret top_df)))).

(** What a run of [top_regions_st] leaves behind. *)
Definition run_ok (st : store) (r : ref) (df : DataFrame V) (name : string) (n : Z)
  (out : result ref * store) : Prop :=
  firstn (length st) (snd out) = st /\
  nth_error (snd out) r = Some (PDataFrame df) /\
  match fst out with
  | Ok r' => exists t, nth_error (snd out) r' = Some (PTopFrame t) /\
                       top_regions argsort df name n = Ok t
  | Err e => top_regions argsort df name n = Err e
  end.

End Store.

Arguments pobject V : clear implicits.
Arguments store V : clear implicits.

(** ** The rest of utils.py and main.py

    [load_data] reads a file of the disk; the disk is a map from paths to
    the tables that the library parses out of the files, and a path without
    a file raises FileNotFoundError.  The three select boxes of the sidebar
    hold the position that the user chose. *)

Section Dashboard.
Context {V : Type} `{Numeric V}.
Variable argsort : forall A : Type, (A -> A -> bool) -> list A -> list nat.

(** [len(df)] *)
Definition nrows (df : DataFrame V) : nat :=
  match df with
  | [] => 0%nat
  | (_, c) :: _ => column_length c
  end.

(** [df.select_dtypes(include='number').columns.tolist()] *)
Definition numeric_cols (df : DataFrame V) : list string :=
  flat_map (fun nc => match snd nc with
                      | NumCol _ => [fst nc]
                      | ObjCol _ => []
                      end) df.

(** [df.select_dtypes(include='object').columns.tolist()] *)
Definition categorical_cols (df : DataFrame V) : list string :=
  flat_map (fun nc => match snd nc with
                      | NumCol _ => []
                      | ObjCol _ => [fst nc]
                      end) df.

Definition is_missing {A : Type} (c : option A) : bool :=
  match c with
  | Some _ => false
  | None => true
  end.

(** One entry of [df.isnull().sum()] *)
Definition count_missing (c : column V) : nat :=
  match c with
  | NumCol cells => length (filter is_missing cells)
  | ObjCol cells => length (filter is_missing cells)
  end.

Record DataSummary : Type := {
  total_rows : nat;
  total_columns : nat;
  numeric_columns : nat;
  categorical_columns : nat;
  (** the entry 'missing_values' *)
  missing_values_count : nat
}.

Definition get_data_summary (df : DataFrame V) : DataSummary :=
  {| total_rows := nrows df;
     total_columns := length (columns df);
     numeric_columns := length (numeric_cols df);
     categorical_columns := length (categorical_cols df);
     missing_values_count := list_sum (map (fun nc => count_missing (snd nc)) df) |}.

(** Every column has as many cells as the table has rows. *)
Definition rectangular (df : DataFrame V) : Prop :=
  forall nc, In nc df -> column_length (snd nc) = nrows df.

Definition no_missing (c : column V) : Prop :=
  match c with
  | NumCol cells => forall v, In v cells -> v <> None
  | ObjCol cells => forall v, In v cells -> v <> None
  end.

Definition disk : Type := string -> option (DataFrame V).

(** A script of the page runs to its end or is halted by [st.stop()] after
    an error message was shown. *)
Inductive outcome (A : Type) : Type :=
| Done (a : A)
| Stopped (message : string).

(** [st.selectbox]: the option at the chosen position; a position that the
    options do not have stands for the first option. *)
Definition selectbox (first : string) (others : list string) (choice : nat) : string :=
  nth choice (first :: others) first.

Record Session : Type := {
  csv_select : nat;
  kpi_select : nat;
  x_select : nat
}.

Definition csv_files : list string :=
  ["data/togo_dapaong_raw.csv"; "data/sierraleone_bumbna_raw.csv"]%string.

Definition load_data (files : disk) (file_path : string) : option (DataFrame V) :=
  files file_path.

Definition setup_sidebar (files : disk) (s : Session)
  : outcome (DataFrame V * string * option string) :=
  let csv_file := selectbox "data/benin_raw.csv" csv_files (csv_select s) in
  match load_data files csv_file with
  | None => Stopped _ ("File not found: " ++ csv_file)
  | Some df =>
      match numeric_cols df with
      | [] => Stopped _ "No numeric columns available for KPI selection."
      | first :: others =>
          let kpi_column := selectbox first others (kpi_select s) in
          let x_column :=
            match categorical_cols df with
            | [] => None
            | _ :: _ =>
                let x := selectbox "None" (categorical_cols df) (x_select s) in
                if String.eqb x "None" then None else Some x
            end in
          Done (df, kpi_column, x_column)
      end
  end.

(** What a run of [main] ends in: halted in the sidebar, an exception out of
    a display function, or the page with its metrics, box plot and ranked
    table. *)
Inductive run : Type :=
| Halted (message : string)
| Raised (e : error)
| Rendered (m : Metrics V) (fig : BoxPlot) (top : TopFrame V).

Definition main (files : disk) (s : Session) : run :=
  match setup_sidebar files s with
  | Stopped _ message => Halted message
  | Done (df, kpi_column, x_column) =>
      match display_metrics df kpi_column with
      | Err e => Raised e
      | Ok m =>
          let content := display_main_content argsort df kpi_column x_column in
          match top_df content with
          | Err e => Raised e
          | Ok top => Rendered m (boxplot_fig content) top
          end
      end
  end.

End Dashboard.

Arguments DataSummary : clear implicits.
Arguments disk V : clear implicits.
Arguments run V : clear implicits.

(** ** Example tables *)

(** [Region = [A, A, B]], [GHI = [10, 30, 20]]. *)
Definition example_table : DataFrame Q :=
  [("Region"%string, ObjCol [Some "A"%string; Some "A"%string; Some "B"%string]);
   ("GHI"%string, NumCol [Some 10%Q; Some 30%Q; Some 20%Q])].


(** No column "Region"; one value is missing. *)
Definition ungrouped_table : DataFrame Q :=
  [("GHI"%string, NumCol [Some 10%Q; Some 30%Q; None; Some 30%Q; Some 20%Q])].

(** Eighteen rows with one and the same value. *)
Definition flat_table : DataFrame Q :=
  [("GHI"%string, NumCol (repeat (Some 5%Q) 18))].

(** "Region" holds numeric codes. *)
Definition coded_table : DataFrame Q :=
  [("Region"%string, NumCol [Some 1%Q; Some 2%Q; Some 1%Q]);
   ("GHI"%string, NumCol [Some 10%Q; Some 30%Q; Some 20%Q])].

(** A text column next to "Region". *)
Definition commented_table : DataFrame Q :=
  [("Region"%string, ObjCol [Some "A"%string; Some "B"%string]);
   ("Comments"%string, ObjCol [Some "clear"%string; None])].

(** Three readings of 0.1, as binary64 values. *)
Definition tenths : DataFrame float :=
  [("GHI"%string, NumCol [Some 0x1.999999999999ap-4%float;
                          Some 0x1.999999999999ap-4%float;
                          Some 0x1.999999999999ap-4%float])].

(** The rational number that a finite binary64 value stands for. *)
Definition float_value (x : float) : option Q :=
  match Prim2SF x with
  | S754_zero _ => Some 0%Q
  | S754_finite s m e =>
      Some (Qred ((if s then - (1) else 1) * inject_Z (Z.pos m) * Qpower 2 e))%Q
  | _ => None
  end.

(** Three rows of A whose values cancel but for 1, and one row of B, as
    binary64 values; and the same numbers as exact rationals. *)
Definition rounding_table : DataFrame float :=
  [("Region"%string,
    ObjCol [Some "A"%string; Some "A"%string; Some "A"%string; Some "B"%string]);
   ("GHI"%string,
    NumCol [Some 1%float; Some 1e16%float; Some (-1e16)%float; Some 0.25%float])].

Definition rounding_table_exact : DataFrame Q :=
  [("Region"%string,
    ObjCol [Some "A"%string; Some "A"%string; Some "A"%string; Some "B"%string]);
   ("GHI"%string,
    NumCol [Some 1%Q; Some 10000000000000000%Q; Some (- (10000000000000000))%Q;
            Some (1 # 4)%Q])].

(** The three values of A in two orders of the rows. *)
Definition cancelling_rows : DataFrame float :=
  [("GHI"%string, NumCol [Some 1%float; Some 1e16%float; Some (-1e16)%float])].

Definition cancelling_rows_reordered : DataFrame float :=
  [("GHI"%string, NumCol [Some 1e16%float; Some (-1e16)%float; Some 1%float])].

(** A column without any value. *)
Definition blank_table : DataFrame Q :=
  [("GHI"%string, NumCol [None; None])].

(** The number of values, as a rational. *)
Definition count_Q (l : list Q) : Q := inject_Z (Z.of_nat (length l)).

(** The ranking column has "index" in its name. *)
Definition index_table : DataFrame Q :=
  [("UV_index"%string, NumCol [Some 3%Q; Some 7%Q])].

(** The ranking column has "Region" in its name. *)
Definition score_table : DataFrame Q :=
  [("Region"%string, ObjCol [Some "A"%string; Some "B"%string]);
   ("RegionScore"%string, NumCol [Some 1%Q; Some 2%Q])].

(** Two groups of equal mean, B in the first row. *)
Definition tie_table : DataFrame Q :=
  [("Region"%string, ObjCol [Some "B"%string; Some "A"%string]);
   ("GHI"%string, NumCol [Some 20%Q; Some 20%Q])].

(** The median is the middle value of the sorted data, or the mean of the
    two middle values. *)
Definition is_median (l : list Q) (md : Q) : Prop :=
  exists s,
    Permutation s l /\
    StronglySorted Qle s /\
    if Nat.even (length l)
    then exists a b, nth_error s (length l / 2 - 1) = Some a /\
                     nth_error s (length l / 2) = Some b /\
                     (md == (a + b) / 2)%Q
    else nth_error s (length l / 2) = Some md.

(** A disk that holds the example table as the first of the three files. *)
Definition example_disk : disk Q :=
  fun path => if String.eqb path "data/benin_raw.csv" then Some example_table else None.

(** The first file, the first KPI, and the second option of the grouping. *)
Definition example_session : Session :=
  {| csv_select := 0; kpi_select := 0; x_select := 1 |}.

(** The same choices with no grouping selected. *)
Definition plain_session : Session :=
  {| csv_select := 0; kpi_select := 0; x_select := 0 |}.

(** A disk whose first file holds numeric region codes. *)
Definition coded_disk : disk Q :=
  fun path => if String.eqb path "data/benin_raw.csv" then Some coded_table else None.

(** Two results that are both missing or equal as rationals. *)
Definition same_value (a b : option Q) : Prop :=
  match a, b with
  | Some x, Some y => (x == y)%Q
  | None, None => True
  | _, _ => False
  end.

(** * Facts about the list operations *)

Section ListFacts.
Context {A : Type}.

Lemma head_nonneg (n : Z) (l : list A) :
  (0 <= n)%Z -> head n l = firstn (Z.to_nat n) l.
Proof.
  intros Hn. unfold head.
  destruct (Z.leb_spec 0 n) as [_ | Hlt]; [reflexivity | lia].
Qed.

Lemma head_length_nonneg (n : Z) (l : list A) :
  (0 <= n)%Z -> length (head n l) = Nat.min (Z.to_nat n) (length l).
Proof.
  intros Hn. rewrite head_nonneg by assumption. apply length_firstn.
Qed.


Lemma take_cons (i : nat) (idx : list nat) (l : list A) :
  take (i :: idx) l =
  match nth_error l i with Some x => [x] | None => [] end ++ take idx l.
Proof. reflexivity. Qed.

Lemma take_seq_shift (pre l : list A) :
  take (seq (length pre) (length l)) (pre ++ l) = l.
Proof.
  revert pre. induction l as [| x l IH]; intros pre; [reflexivity |].
  cbn [length seq]. rewrite take_cons.
  rewrite nth_error_app2 by lia. rewrite Nat.sub_diag. cbn [nth_error app].
  f_equal.
  specialize (IH (pre ++ [x])).
  rewrite length_app, Nat.add_1_r, <- app_assoc in IH. exact IH.
Qed.

Lemma take_seq (l : list A) : take (seq 0 (length l)) l = l.
Proof. exact (take_seq_shift [] l). Qed.

Lemma take_perm (idx : list nat) (l : list A) :
  Permutation idx (seq 0 (length l)) -> Permutation (take idx l) l.
Proof.
  intros Hp. rewrite <- (take_seq l) at 2.
  unfold take. apply Permutation_flat_map. exact Hp.
Qed.

Lemma take_pairs (ps : list (nat * A)) (l : list A) :
  (forall p, In p ps -> nth_error l (fst p) = Some (snd p)) ->
  take (map fst ps) l = map snd ps.
Proof.
  induction ps as [| p ps IH]; intros Hps; [reflexivity |].
  cbn [map]. rewrite take_cons, (Hps p (or_introl eq_refl)). cbn [app].
  f_equal. apply IH. intros q Hq. apply Hps. right. exact Hq.
Qed.

Lemma enumerate_shift_nth (k : nat) (l : list A) (p : nat * A) :
  In p (combine (seq k (length l)) l) ->
  (k <= fst p)%nat /\ nth_error l (fst p - k) = Some (snd p).
Proof.
  revert k. induction l as [| x l IH]; intros k Hin; [contradiction |].
  cbn [length seq combine] in Hin. destruct Hin as [<- | Hin].
  - cbn [fst snd]. rewrite Nat.sub_diag. split; [lia | reflexivity].
  - destruct (IH (S k) Hin) as [Hle Hnth]. split; [lia |].
    replace (fst p - k)%nat with (S (fst p - S k)) by lia. exact Hnth.
Qed.

Lemma enumerate_nth (l : list A) (p : nat * A) :
  In p (enumerate l) -> nth_error l (fst p) = Some (snd p).
Proof.
  intros Hin. destruct (enumerate_shift_nth 0 l p Hin) as [_ Hnth].
  rewrite Nat.sub_0_r in Hnth. exact Hnth.
Qed.

Lemma enumerate_fst (l : list A) : map fst (enumerate l) = seq 0 (length l).
Proof.
  unfold enumerate. generalize 0%nat.
  induction l as [| x l IH]; intros k; [reflexivity |].
  cbn [length seq combine map fst]. f_equal. apply IH.
Qed.

Lemma enumerate_snd (l : list A) : map snd (enumerate l) = l.
Proof.
  unfold enumerate. generalize 0%nat.
  induction l as [| x l IH]; intros k; [reflexivity |].
  cbn [length seq combine map snd]. f_equal. apply IH.
Qed.
End ListFacts.

Lemma filter_none {A : Type} (f : A -> bool) (l : list A) :
  (forall x, In x l -> f x = false) -> filter f l = [].
Proof.
  induction l as [| x l IH]; intros Hf; [reflexivity |].
  cbn [filter]. rewrite (Hf x (or_introl eq_refl)).
  apply IH. intros y Hy. apply Hf. right. exact Hy.
Qed.

Lemma map_fst_combine {A B : Type} (l : list A) (l' : list B) :
  length l = length l' -> map fst (combine l l') = l.
Proof.
  revert l'. induction l as [| x l IH]; intros [| y l'] Hlen; try discriminate.
  - reflexivity.
  - cbn. f_equal. apply IH. cbn in Hlen. lia.
Qed.

Lemma take_map {A B : Type} (f : A -> B) (idx : list nat) (l : list A) :
  take idx (map f l) = map f (take idx l).
Proof.
  induction idx as [| i idx IH]; [reflexivity |].
  rewrite !take_cons, map_app, IH, nth_error_map.
  destruct (nth_error l i); reflexivity.
Qed.

(** ** Sortedness *)

Section SortFacts.
Context {A : Type}.

Lemma StronglySorted_app (R : A -> A -> Prop) (l1 l2 : list A) :
  StronglySorted R l1 -> StronglySorted R l2 ->
  (forall x y, In x l1 -> In y l2 -> R x y) ->
  StronglySorted R (l1 ++ l2).
Proof.
  induction l1 as [| a l1 IH]; intros H1 H2 Hx; [exact H2 |].
  inversion H1 as [| ? ? Hs Hall]; subst. cbn [app]. constructor.
  - apply IH; auto. intros x y Hin. apply Hx. right. exact Hin.
  - apply Forall_app. split; [exact Hall |].
    apply Forall_forall. intros y Hy. apply Hx; [left; reflexivity | exact Hy].
Qed.

Lemma StronglySorted_rev (R : A -> A -> Prop) (l : list A) :
  StronglySorted R l -> StronglySorted (fun x y => R y x) (rev l).
Proof.
  induction 1 as [| a l Hs IH Hall]; [constructor |].
  cbn [rev]. apply StronglySorted_app.
  - exact IH.
  - repeat constructor.
  - intros x y Hx [<- | []]. apply in_rev in Hx.
    rewrite Forall_forall in Hall. apply Hall. exact Hx.
Qed.

End SortFacts.

Lemma StronglySorted_map {A B : Type} (R : B -> B -> Prop) (f : A -> B) (l : list A) :
  StronglySorted (fun x y => R (f x) (f y)) l -> StronglySorted R (map f l).
Proof.
  induction 1 as [| a l Hs IH Hall]; cbn [map]; constructor.
  - exact IH.
  - rewrite Forall_forall in *. intros y Hy.
    apply in_map_iff in Hy. destruct Hy as [x [<- Hx]]. apply Hall. exact Hx.
Qed.

Section InsertionFacts.
Context {A : Type} (le : A -> A -> bool).

Lemma insert_perm (x : A) (l : list A) : Permutation (insert le x l) (x :: l).
Proof.
  induction l as [| y t IH]; cbn [insert]; [reflexivity |].
  destruct (le x y); [reflexivity |].
  rewrite IH. apply perm_swap.
Qed.

Lemma isort_perm (l : list A) : Permutation (isort le l) l.
Proof.
  induction l as [| x l IH]; cbn [isort fold_right]; [reflexivity |].
  fold (isort le l). rewrite insert_perm, IH. reflexivity.
Qed.

Lemma insert_after_perm (x : A) (l : list A) :
  Permutation (insert_after le x l) (x :: l).
Proof.
  induction l as [| y t IH]; cbn [insert_after]; [reflexivity |].
  destruct (le y x); [| reflexivity].
  rewrite IH. apply perm_swap.
Qed.

Lemma isort_after_perm (l : list A) : Permutation (isort_after le l) l.
Proof.
  induction l as [| x l IH]; cbn [isort_after fold_right]; [reflexivity |].
  fold (isort_after le l). rewrite insert_after_perm, IH. reflexivity.
Qed.

Hypothesis le_total : forall x y, le x y = true \/ le y x = true.
Hypothesis le_trans : forall x y z, le x y = true -> le y z = true -> le x z = true.

Let R (x y : A) : Prop := le x y = true.

Lemma insert_sorted (x : A) (l : list A) :
  StronglySorted R l -> StronglySorted R (insert le x l).
Proof.
  induction 1 as [| y t Hs IH Hall]; cbn [insert].
  - repeat constructor.
  - destruct (le x y) eqn:Hxy.
    + constructor; [constructor; assumption |].
      constructor; [exact Hxy |].
      rewrite Forall_forall in *. intros z Hz.
      eapply le_trans; [exact Hxy | apply Hall; exact Hz].
    + constructor; [exact IH |].
      rewrite Forall_forall in *. intros z Hz.
      apply (Permutation_in _ (insert_perm x t)) in Hz.
      destruct Hz as [<- | Hz]; [| apply Hall; exact Hz].
      destruct (le_total x y) as [Hc | Hc]; [congruence | exact Hc].
Qed.

Lemma isort_sorted (l : list A) : StronglySorted R (isort le l).
Proof.
  induction l as [| x l IH]; cbn [isort fold_right]; [constructor |].
  apply insert_sorted. exact IH.
Qed.

Lemma insert_after_sorted (x : A) (l : list A) :
  StronglySorted R l -> StronglySorted R (insert_after le x l).
Proof.
  induction 1 as [| y t Hs IH Hall]; cbn [insert_after].
  - repeat constructor.
  - destruct (le y x) eqn:Hyx.
    + constructor; [exact IH |].
      rewrite Forall_forall in *. intros z Hz.
      apply (Permutation_in _ (insert_after_perm x t)) in Hz.
      destruct Hz as [<- | Hz]; [exact Hyx | apply Hall; exact Hz].
    + assert (Hxy : le x y = true).
      { destruct (le_total x y) as [Hc | Hc]; [exact Hc | congruence]. }
      constructor; [constructor; assumption |].
      constructor; [exact Hxy |].
      rewrite Forall_forall in *. intros z Hz.
      eapply le_trans; [exact Hxy | apply Hall; exact Hz].
Qed.

Lemma isort_after_sorted (l : list A) : StronglySorted R (isort_after le l).
Proof.
  induction l as [| x l IH]; cbn [isort_after fold_right]; [constructor |].
  apply insert_after_sorted. exact IH.
Qed.
End InsertionFacts.

(** ** The two sorting procedures meet the contract *)

Lemma argsort_of_pairs {A : Type} (le : A -> A -> bool) (l : list A)
  (ps : list (nat * A)) :
  Permutation ps (enumerate l) ->
  ((forall x y, le x y = true \/ le y x = true) ->
   (forall x y z, le x y = true -> le y z = true -> le x z = true) ->
   StronglySorted (fun p q => on_snd le p q = true) ps) ->
  Permutation (map fst ps) (seq 0 (length l)) /\
  ((forall x y, le x y = true \/ le y x = true) ->
   (forall x y z, le x y = true -> le y z = true -> le x z = true) ->
   StronglySorted (fun x y => le x y = true) (take (map fst ps) l)).
Proof.
  intros Hp Hs. split.
  - rewrite <- enumerate_fst. apply Permutation_map. exact Hp.
  - intros Htot Htr. rewrite take_pairs.
    + apply StronglySorted_map. apply Hs; assumption.
    + intros p Hin. apply enumerate_nth.
      apply (Permutation_in _ Hp). exact Hin.
Qed.

Lemma stable_argsort_spec : argsort_spec stable_argsort.
Proof.
  intros A le l. unfold stable_argsort. apply argsort_of_pairs.
  - apply isort_perm.
  - intros Htot Htr. apply isort_sorted; unfold on_snd; eauto.
Qed.

Lemma unstable_argsort_spec : argsort_spec unstable_argsort.
Proof.
  intros A le l. unfold unstable_argsort.
  destruct (17 <? length l)%nat; [| apply stable_argsort_spec].
  apply argsort_of_pairs.
  - apply isort_after_perm.
  - intros Htot Htr. apply isort_after_sorted; unfold on_snd; eauto.
Qed.

(** ** Sorting rows in descending order *)

Section RowSortFacts.
Context {K A : Type} (le : A -> A -> bool).
Variable argsort : forall A : Type, (A -> A -> bool) -> list A -> list nat.
Hypothesis argsort_ok : argsort_spec argsort.

Let wrap (r : K * A) : K * option A := (fst r, Some (snd r)).

Lemma rows_split_perm (rows : list (K * option A)) :
  Permutation (map wrap (non_missing rows) ++ missing rows) rows.
Proof.
  induction rows as [| [k [x |]] rows IH].
  - reflexivity.
  - cbn. constructor. exact IH.
  - cbn. rewrite <- Permutation_middle. constructor. exact IH.
Qed.

Lemma sort_rows_desc_perm (rows : list (K * option A)) :
  Permutation (sort_rows_desc argsort le rows) rows.
Proof.
  unfold sort_rows_desc.
  eapply Permutation_trans; [| apply rows_split_perm].
  apply Permutation_app_tail. apply Permutation_map.
  eapply Permutation_trans; [symmetry; apply Permutation_rev |].
  eapply Permutation_trans; [| symmetry; apply Permutation_rev].
  apply take_perm.
  destruct (argsort_ok le (map snd (rev (non_missing rows)))) as [Hp _].
  rewrite length_map in Hp. exact Hp.
Qed.

Lemma sort_rows_desc_length (rows : list (K * option A)) :
  length (sort_rows_desc argsort le rows) = length rows.
Proof. apply Permutation_length, sort_rows_desc_perm. Qed.

Lemma missing_values (rows : list (K * option A)) :
  Forall (fun v => v = None) (map snd (missing rows)).
Proof.
  apply Forall_forall. intros v Hv.
  apply in_map_iff in Hv. destruct Hv as [[k o] [<- Hin]].
  apply filter_In in Hin. destruct Hin as [_ Ho]. cbn in *.
  destruct o; [discriminate | reflexivity].
Qed.

Lemma all_missing_sorted (l : list (option A)) :
  Forall (fun v => v = None) l -> StronglySorted (desc_le le) l.
Proof.
  induction 1 as [| v l Hv Hall IH]; constructor.
  - exact IH.
  - apply Forall_forall. intros y Hy.
    rewrite Forall_forall in Hall. rewrite (Hall y Hy).
    destruct v; exact I.
Qed.

Lemma sort_rows_desc_sorted (rows : list (K * option A)) :
  (forall x y, le x y = true \/ le y x = true) ->
  (forall x y z, le x y = true -> le y z = true -> le x z = true) ->
  StronglySorted (desc_le le) (map snd (sort_rows_desc argsort le rows)).
Proof.
  intros Htot Htr. unfold sort_rows_desc.
  rewrite map_app, map_map. cbn [snd].
  rewrite <- (map_map snd Some), map_rev, <- take_map.
  apply StronglySorted_app.
  - apply StronglySorted_map. cbn [desc_le].
    apply (@StronglySorted_rev _ (fun x y => le x y = true)).
    apply (proj2 (argsort_ok le _)); assumption.
  - apply all_missing_sorted, missing_values.
  - intros x y _ Hy.
    pose proof (missing_values rows) as Hm. rewrite Forall_forall in Hm.
    rewrite (Hm y Hy). destruct x; exact I.
Qed.
End RowSortFacts.

(** ** Group keys *)

Section LabelFacts.
Context {V : Type} {HN : Numeric V} {HO : NumericOrder V}.

Lemma num_eqb_refl (x : V) : num_eqb x x = true.
Proof.
  unfold num_eqb. destruct (num_leb_total x x) as [E | E]; rewrite E; reflexivity.
Qed.

Lemma num_eqb_sym (x y : V) : num_eqb x y = num_eqb y x.
Proof. unfold num_eqb. apply andb_comm. Qed.

Lemma num_eqb_trans (x y z : V) :
  num_eqb x y = true -> num_eqb y z = true -> num_eqb x z = true.
Proof.
  unfold num_eqb. rewrite !andb_true_iff. intros [Hxy Hyx] [Hyz Hzy].
  split; eapply num_leb_trans; eassumption.
Qed.

Lemma label_eqb_refl (a : label V) : label_eqb a a = true.
Proof.
  destruct a; cbn.
  - apply Nat.eqb_refl.
  - apply num_eqb_refl.
  - apply String.eqb_refl.
Qed.

Lemma label_eqb_sym (a b : label V) : label_eqb a b = label_eqb b a.
Proof.
  destruct a, b; cbn; try reflexivity.
  - apply Nat.eqb_sym.
  - apply num_eqb_sym.
  - apply String.eqb_sym.
Qed.

Lemma label_eqb_trans (a b c : label V) :
  label_eqb a b = true -> label_eqb b c = true -> label_eqb a c = true.
Proof.
  destruct a, b, c; cbn; try discriminate.
  - rewrite !Nat.eqb_eq. congruence.
  - apply num_eqb_trans.
  - rewrite !String.eqb_eq. congruence.
Qed.

Lemma separated_snoc (l : list (label V)) (g : label V) :
  separated l -> existsb (fun g' => label_eqb g' g) l = false ->
  separated (l ++ [g]).
Proof.
  unfold separated. induction 1 as [| a l Ha Hl IH]; intros Hex; cbn.
  - repeat constructor.
  - cbn in Hex. apply orb_false_iff in Hex. destruct Hex as [Hag Hex].
    constructor; [| apply IH; exact Hex].
    apply Forall_app. split; [exact Ha |]. repeat constructor. exact Hag.
Qed.

Lemma seen_add_separated (g : label V) (seen : list (label V)) :
  separated seen -> separated (seen_add g seen).
Proof.
  intros Hs. unfold seen_add.
  destruct (existsb _ seen) eqn:E; [exact Hs | apply separated_snoc; assumption].
Qed.

Lemma seen_add_covers (g k : label V) (seen : list (label V)) :
  existsb (fun g' => label_eqb g' k) seen = true \/ g = k ->
  existsb (fun g' => label_eqb g' k) (seen_add g seen) = true.
Proof.
  unfold seen_add. intros [Hk | ->].
  - destruct (existsb (fun g' => label_eqb g' g) seen); [exact Hk |].
    rewrite existsb_app, Hk. reflexivity.
  - destruct (existsb (fun g' => label_eqb g' k) seen) eqn:E; [exact E |].
    rewrite existsb_app. cbn. rewrite label_eqb_refl, orb_true_r. reflexivity.
Qed.

Lemma distinct_groups_snoc (keys : list (option (label V))) (k : option (label V)) :
  distinct_groups (keys ++ [k]) =
  match k with
  | Some g => seen_add g (distinct_groups keys)
  | None => distinct_groups keys
  end.
Proof.
  unfold distinct_groups, dropna. rewrite flat_map_app, fold_left_app.
  destruct k; cbn; reflexivity.
Qed.

Lemma distinct_groups_separated (keys : list (option (label V))) :
  separated (distinct_groups keys).
Proof.
  induction keys as [| k keys IH] using rev_ind.
  - constructor.
  - rewrite distinct_groups_snoc. destruct k; [| exact IH].
    apply seen_add_separated. exact IH.
Qed.

Lemma distinct_groups_covers (keys : list (option (label V))) (k : label V) :
  In (Some k) keys ->
  existsb (fun g' => label_eqb g' k) (distinct_groups keys) = true.
Proof.
  induction keys as [| k' keys IH] using rev_ind; [contradiction |].
  intros Hin. rewrite distinct_groups_snoc.
  apply in_app_or in Hin. destruct Hin as [Hin | [-> | []]].
  - destruct k' as [g |]; [| apply IH; exact Hin].
    apply seen_add_covers. left. apply IH. exact Hin.
  - apply seen_add_covers. right. reflexivity.
Qed.

Lemma seen_add_incl (g k : label V) (seen : list (label V)) :
  In k (seen_add g seen) -> In k seen \/ k = g.
Proof.
  unfold seen_add. destruct (existsb _ seen); [auto |].
  intros Hin. apply in_app_or in Hin. destruct Hin as [Hin | [<- | []]]; auto.
Qed.

Lemma distinct_groups_sound (keys : list (option (label V))) (g : label V) :
  In g (distinct_groups keys) -> In (Some g) keys.
Proof.
  induction keys as [| k keys IH] using rev_ind; [contradiction |].
  rewrite distinct_groups_snoc. intros Hin. apply in_or_app.
  destruct k as [g' |]; [| left; apply IH; exact Hin].
  apply seen_add_incl in Hin. destruct Hin as [Hin | ->].
  - left. apply IH. exact Hin.
  - right. left. reflexivity.
Qed.

(** A key matches at most one of the separated groups. *)
Lemma separated_unique (l : list (label V)) (g g' k : label V) :
  ForallOrdPairs (fun a b => label_eqb a b = false) (g :: l) ->
  In g' l -> label_eqb g k = true -> label_eqb g' k = false.
Proof.
  intros Hs Hin Hgk. inversion Hs as [| ? ? Hall _]; subst.
  rewrite Forall_forall in Hall. specialize (Hall g' Hin).
  destruct (label_eqb g' k) eqn:E; [| reflexivity].
  rewrite label_eqb_sym in E.
  rewrite (label_eqb_trans _ _ _ Hgk E) in Hall. discriminate.
Qed.
End LabelFacts.

(** ** Group-by computes the mean of each group *)

Section GroupFacts.
Context {V : Type} {HN : Numeric V} {HO : NumericOrder V}.

Lemma sum_count_snoc (l : list V) (v : option V) :
  sum_count (l ++ dropna [v]) = observe v (sum_count l).
Proof.
  unfold sum_count. destruct v as [x |]; cbn [dropna flat_map app].
  - rewrite fold_left_app. reflexivity.
  - rewrite app_nil_r. reflexivity.
Qed.

Lemma group_values_snoc (g : label V) (rows : list (option (label V) * option V))
  (r : option (label V) * option V) :
  group_values g (rows ++ [r]) =
  group_values g rows ++ (if in_group g r then dropna [snd r] else []).
Proof.
  unfold group_values, dropna. rewrite filter_app, map_app, flat_map_app.
  f_equal. cbn [filter]. destruct (in_group g r); reflexivity.
Qed.

Lemma add_obs_map (k : label V) (v : option V) (F : label V -> running V)
  (groups : list (label V)) :
  separated groups ->
  add_obs k v (map (fun g => (g, F g)) groups) =
  map (fun g => (g, if label_eqb g k then observe v (F g) else F g)) groups
  ++ (if existsb (fun g' => label_eqb g' k) groups then []
      else [(k, observe v start)]).
Proof.
  induction groups as [| g groups IH]; intros Hs; [reflexivity |].
  cbn [map add_obs existsb]. destruct (label_eqb g k) eqn:Hgk; cbn [orb app].
  - rewrite app_nil_r. f_equal. apply map_ext_in. intros g' Hin.
    rewrite (@separated_unique V HN HO groups g g' k Hs Hin Hgk). reflexivity.
  - f_equal. apply IH. inversion Hs; assumption.
Qed.

Lemma existsb_label_false (groups : list (label V)) (k g : label V) :
  existsb (fun g' => label_eqb g' k) groups = false ->
  In g groups -> label_eqb g k = false.
Proof.
  intros Hex Hin. destruct (label_eqb g k) eqn:E; [| reflexivity].
  rewrite <- Hex. symmetry. apply existsb_exists. exists g. split; assumption.
Qed.

(** No earlier row belongs to a group that is encountered for the first
    time. *)
Lemma group_values_fresh (rows : list (option (label V) * option V)) (k : label V) :
  existsb (fun g' => label_eqb g' k) (distinct_groups (map fst rows)) = false ->
  group_values k rows = [].
Proof.
  intros Hex. unfold group_values.
  rewrite filter_none; [reflexivity |].
  intros [[k0 |] v] Hin; unfold in_group; cbn [fst]; [| reflexivity].
  destruct (label_eqb k k0) eqn:E; [| reflexivity].
  assert (Hc : existsb (fun g' => label_eqb g' k0) (distinct_groups (map fst rows)) = true).
  { apply distinct_groups_covers. apply in_map_iff. exists (Some k0, v). auto. }
  apply existsb_exists in Hc. destruct Hc as [g [Hg Hgk0]].
  rewrite label_eqb_sym in E.
  rewrite <- Hex. symmetry. apply existsb_exists. exists g. split; [exact Hg |].
  eapply label_eqb_trans; eassumption.
Qed.

Theorem accumulate_spec (rows : list (option (label V) * option V)) :
  accumulate rows =
  map (fun g => (g, sum_count (group_values g rows))) (distinct_groups (map fst rows)).
Proof.
  induction rows as [| [k v] rows IH] using rev_ind; [reflexivity |].
  unfold accumulate in *. rewrite fold_left_app. cbn [fold_left fst snd].
  rewrite map_app. cbn [map fst]. rewrite distinct_groups_snoc.
  destruct k as [k |].
  - rewrite IH, add_obs_map by apply distinct_groups_separated.
    unfold seen_add.
    destruct (existsb (fun g' => label_eqb g' k) (distinct_groups (map fst rows))) eqn:Hex.
    + rewrite app_nil_r. apply map_ext. intros g.
      rewrite group_values_snoc. unfold in_group. cbn [fst snd].
      destruct (label_eqb g k).
      * rewrite sum_count_snoc. reflexivity.
      * rewrite app_nil_r. reflexivity.
    + rewrite map_app. cbn [map]. f_equal.
      * apply map_ext_in. intros g Hin.
        rewrite (@existsb_label_false _ k g Hex Hin).
        rewrite group_values_snoc. unfold in_group. cbn [fst snd].
        rewrite (@existsb_label_false _ k g Hex Hin), app_nil_r. reflexivity.
      * rewrite group_values_snoc. unfold in_group. cbn [fst snd].
        rewrite label_eqb_refl, (@group_values_fresh rows k Hex), sum_count_snoc.
        reflexivity.
  - rewrite IH. apply map_ext. intros g.
    rewrite group_values_snoc. unfold in_group. cbn [fst].
    rewrite app_nil_r. reflexivity.
Qed.

(** The series of group means has one entry per distinct group, whatever
    the arithmetic. *)
Lemma mean_series_keys (kc : column V) (vs : list (option V)) :
  Permutation (map fst (mean_series kc vs))
              (distinct_groups (map fst (combine (column_labels kc) vs))).
Proof.
  unfold mean_series. rewrite accumulate_spec, map_map. cbn [fst].
  eapply Permutation_trans; [apply Permutation_map, isort_perm |].
  rewrite map_map. cbn [fst]. rewrite map_id. reflexivity.
Qed.

Lemma mean_series_length (kc : column V) (vs : list (option V)) :
  length (mean_series kc vs) =
  length (group_means (combine (column_labels kc) vs)).
Proof.
  unfold group_means.
  rewrite length_map, <- (Permutation_length (mean_series_keys kc vs)), length_map.
  reflexivity.
Qed.

Lemma group_means_length (keys : list (option (label V))) (vs : list (option V)) :
  length keys = length vs ->
  length (group_means (combine keys vs)) = length (distinct_groups keys).
Proof.
  intros Hlen. unfold group_means.
  rewrite length_map, map_fst_combine by exact Hlen. reflexivity.
Qed.
End GroupFacts.

(** ** Exact rationals are ordered *)

#[export] Instance NumericOrder_Q : NumericOrder Q.
Proof.
  split; cbn.
  - intros x y. rewrite !Qle_bool_iff.
    destruct (Qlt_le_dec x y) as [Hlt | Hle]; [left; apply Qlt_le_weak |]; auto.
  - intros x y z. rewrite !Qle_bool_iff. apply Qle_trans.
Qed.

(** ** Group means in exact arithmetic

    Without rounding the compensation term stays zero, the running sum is
    the plain sum, and the mean that group-by reports is the arithmetic
    mean of the group's values. *)

Section ExactGroups.
Open Scope Q_scope.

Lemma sum_count_exact (l : list Q) :
  sumx (sum_count l) == fold_left Qplus l 0 /\
  compensation (sum_count l) == 0 /\
  nobs (sum_count l) = length l.
Proof.
  induction l as [| x l IH] using rev_ind.
  - cbn. split; [reflexivity |]. split; reflexivity.
  - unfold sum_count in *. rewrite !fold_left_app. cbn [fold_left].
    destruct IH as [Hs [Hc Hn]].
    unfold observe at 1 3 5. cbn zeta. rewrite num_eqb_refl.
    cbn [sumx compensation nobs num_sub num_add Numeric_Q].
    rewrite length_app, Nat.add_1_r, Hn.
    split; [| split; [| reflexivity]].
    + rewrite Hs, Hc. ring.
    + ring.
Qed.

Lemma group_mean_sum_count (l : list Q) : group_mean (sum_count l) = mean l.
Proof.
  destruct (sum_count_exact l) as [Hs [_ Hn]].
  unfold group_mean, mean. rewrite Hn.
  destruct l as [| x t]; [reflexivity |]. cbn [length].
  cbn zeta. rewrite num_eqb_refl. f_equal.
  cbn [num_div Numeric_Q]. apply Qred_complete.
  apply Qmult_comp; [exact Hs | reflexivity].
Qed.

Lemma mean_series_perm (kc : column Q) (vs : list (option Q)) :
  Permutation (mean_series kc vs) (group_means (combine (column_labels kc) vs)).
Proof.
  unfold mean_series, group_means. rewrite accumulate_spec.
  eapply Permutation_trans; [apply Permutation_map, isort_perm |].
  rewrite map_map. cbn [fst snd].
  erewrite map_ext; [reflexivity |].
  intros g. cbn [fst snd]. rewrite group_mean_sum_count. reflexivity.
Qed.
End ExactGroups.

(** ** Column lookup *)

Section LookupFacts.
Context {V : Type} {HN : Numeric V}.

Lemma in_columns_get (df : DataFrame V) (name : string) :
  in_columns name df = true <-> get_column df name <> None.
Proof.
  unfold in_columns, columns.
  induction df as [| [c col] df IH]; cbn.
  - split; [discriminate | congruence].
  - destruct (String.eqb name c); cbn; [split; [discriminate | reflexivity] |].
    exact IH.
Qed.

Lemma in_columns_some (df : DataFrame V) (name : string) (c : column V) :
  get_column df name = Some c -> in_columns name df = true.
Proof. intros E. apply in_columns_get. rewrite E. discriminate. Qed.

Lemma in_columns_none (df : DataFrame V) (name : string) :
  get_column df name = None <-> in_columns name df = false.
Proof.
  unfold in_columns, columns.
  induction df as [| [c col] df IH]; cbn.
  - split; reflexivity.
  - destruct (String.eqb name c); cbn; [split; discriminate | exact IH].
Qed.
End LookupFacts.

(** ** The two branches of [top_regions] *)

Section Branches.
Context {V : Type} {HN : Numeric V}.
Variable argsort : forall A : Type, (A -> A -> bool) -> list A -> list nat.

Lemma with_positions_shift {A : Type} (k : nat) (cells : list A) (i : nat) (v : A) :
  In (LPos (V := V) i, v) (combine (map LPos (seq k (length cells))) cells) ->
  (k <= i)%nat /\ nth_error cells (i - k) = Some v.
Proof.
  revert k. induction cells as [| x cells IH]; intros k Hin; [contradiction |].
  cbn [length seq map combine] in Hin. destruct Hin as [E | Hin].
  - inversion E; subst. rewrite Nat.sub_diag. split; [lia | reflexivity].
  - destruct (IH (S k) Hin) as [Hle Hnth]. split; [lia |].
    replace (i - k)%nat with (S (i - S k)) by lia. exact Hnth.
Qed.

Lemma with_positions_nth {A : Type} (cells : list A) (i : nat) (v : A) :
  In (LPos (V := V) i, v) (with_positions cells) -> nth_error cells i = Some v.
Proof.
  intros Hin. destruct (with_positions_shift 0 cells i v Hin) as [_ Hnth].
  rewrite Nat.sub_0_r in Hnth. exact Hnth.
Qed.

Lemma with_positions_length {A : Type} (cells : list A) :
  length (with_positions (V := V) cells) = length cells.
Proof.
  unfold with_positions. rewrite length_combine, length_map, length_seq. lia.
Qed.

Lemma reset_index_default (column : string) (d : fdata V) :
  reset_index {| index_name := None; col_name := column; data := d |} =
  Ok {| tf_columns := [default_index_name column; column]; tf_data := d |}.
Proof.
  unfold reset_index, default_index_name. cbn [index_name col_name data].
  destruct (String.eqb column "index") eqn:E.
  - apply String.eqb_eq in E. subst column. reflexivity.
  - rewrite String.eqb_sym, E. reflexivity.
Qed.

Lemma top_regions_fallback_eq (df : DataFrame V) (c : column V)
  (column : string) (n : Z) :
  in_columns "Region" df = false ->
  get_column df column = Some c ->
  top_regions argsort df column n =
  Ok {| tf_columns := map (rename_column column) [default_index_name column; column];
        tf_data := head_data n (sorted_column argsort c) |}.
Proof.
  intros Hr Hc. unfold top_regions, select_column. rewrite Hr, Hc.
  destruct c as [cells | cells]; cbn [bind];
    unfold frame_head, sort_values_desc; cbn [index_name col_name data map_data];
    rewrite reset_index_default; reflexivity.
Qed.

Lemma top_regions_grouped_eq (df : DataFrame V) (kc : column V)
  (vs : list (option V)) (column : string) (n : Z) :
  get_column df "Region" = Some kc ->
  get_column df column = Some (NumCol vs) ->
  top_regions argsort df column n =
  if String.eqb "Region" column then Err (ValueError "Region")
  else Ok {| tf_columns := map (rename_column column) ["Region"%string; column];
             tf_data := NumData (head n (sort_rows_desc argsort num_leb (mean_series kc vs))) |}.
Proof.
  intros Hk Hc. unfold top_regions, groupby_mean.
  rewrite (in_columns_some _ _ Hk), Hk, Hc. cbn [bind].
  unfold reset_index, frame_head, sort_values_desc.
  cbn [index_name col_name data map_data].
  destruct (String.eqb "Region" column); reflexivity.
Qed.
End Branches.

(** * The ranked table *)

Section TopRegions.
Context {V : Type} {HN : Numeric V} {HO : NumericOrder V}.
Variable argsort : forall A : Type, (A -> A -> bool) -> list A -> list nat.
Hypothesis argsort_ok : argsort_spec argsort.

(** C2, as amended.  On a table without the column "Region" whose ranking
    column is numeric, [top_regions] returns [head n] of a rearrangement of
    all rows, each row being its original position paired with its raw
    value, ordered non-increasing by value with the missing values last.
    The order among rows of equal value is the one the library's default
    sort produces. *)
Theorem top_regions_fallback (df : DataFrame V) (cells : list (option V))
  (column : string) (n : Z) :
  in_columns "Region" df = false ->
  get_column df column = Some (NumCol cells) ->
  exists names full,
    top_regions argsort df column n =
      Ok {| tf_columns := names; tf_data := NumData (head n full) |} /\
    Permutation full (with_positions cells) /\
    (forall i v, In (LPos i, v) full -> nth_error cells i = Some v) /\
    StronglySorted (desc_le num_leb) (map snd full) /\
    ((0 <= n)%Z -> head n full = firstn (Z.to_nat n) full).
Proof.
  intros Hr Hc. rewrite (top_regions_fallback_eq argsort df column n Hr Hc).
  cbn [sorted_column head_data].
  eexists. exists (sort_rows_desc argsort num_leb (with_positions cells)).
  assert (Hp : Permutation (sort_rows_desc argsort num_leb (with_positions cells))
                           (with_positions (V := V) cells)).
  { apply sort_rows_desc_perm. exact argsort_ok. }
  split; [reflexivity |]. split; [exact Hp |]. split; [| split].
  - intros i v Hin. apply (with_positions_nth (V := V)).
    apply (Permutation_in _ Hp). exact Hin.
  - apply sort_rows_desc_sorted.
    + exact argsort_ok.
    + apply num_leb_total.
    + apply num_leb_trans.
  - apply head_nonneg.
Qed.

(** C3, as amended.  [top_regions] raises "column not found" if and only if
    the ranking column is absent from the table.  It raises nothing when the
    ranking column is numeric and is not the column "Region" itself, and
    nothing when the table has no column "Region" (whatever the ranking
    column holds).  On a table that has the column "Region", a ranking
    column that holds a text in a row with a region raises a type error
    (the mean of texts), and ranking by a numeric column "Region" itself
    raises a value error (the index "Region" cannot be inserted as a
    column beside the column "Region"). *)
Theorem top_regions_errors (df : DataFrame V) (column : string) (n : Z) :
  (is_key_error (top_regions argsort df column n) = true <->
   get_column df column = None) /\
  (forall cells, get_column df column = Some (NumCol cells) ->
                 column <> "Region"%string ->
                 is_ok (top_regions argsort df column n) = true) /\
  (forall c, in_columns "Region" df = false ->
             get_column df column = Some c ->
             is_ok (top_regions argsort df column n) = true) /\
  (forall kc texts g t,
      get_column df "Region" = Some kc ->
      get_column df column = Some (ObjCol texts) ->
      In (Some g, Some t) (combine (column_labels kc) texts) ->
      top_regions argsort df column n = Err (TypeError column)) /\
  (forall cells, get_column df "Region" = Some (NumCol cells) ->
                 column = "Region"%string ->
                 top_regions argsort df column n = Err (ValueError "Region")).
Proof.
  split; [| split; [| split; [| split]]].
  - destruct (in_columns "Region" df) eqn:Hr.
    + destruct (get_column df "Region") as [kc |] eqn:Hk.
      2:{ apply in_columns_none in Hk. congruence. }
      destruct (get_column df column) as [[vs | ts] |] eqn:Hc.
      * rewrite (top_regions_grouped_eq argsort df column n Hk Hc).
        destruct (String.eqb "Region" column); cbn; split; discriminate.
      * unfold top_regions, groupby_mean. rewrite Hr, Hk, Hc. cbn.
        split; discriminate.
      * unfold top_regions, groupby_mean. rewrite Hr, Hk, Hc. cbn.
        split; reflexivity.
    + destruct (get_column df column) as [c |] eqn:Hc.
      * rewrite (top_regions_fallback_eq argsort df column n Hr Hc). cbn.
        split; discriminate.
      * unfold top_regions, select_column. rewrite Hr, Hc. cbn.
        split; reflexivity.
  - intros cells Hc Hne.
    destruct (get_column df "Region") as [kc |] eqn:Hk.
    + rewrite (top_regions_grouped_eq argsort df column n Hk Hc).
      destruct (String.eqb "Region" column) eqn:E; [| reflexivity].
      apply String.eqb_eq in E. congruence.
    + apply in_columns_none in Hk.
      rewrite (top_regions_fallback_eq argsort df column n Hk Hc). reflexivity.
  - intros c Hr Hc.
    rewrite (top_regions_fallback_eq argsort df column n Hr Hc). reflexivity.
  - intros kc texts g t Hk Hc _.
    unfold top_regions, groupby_mean.
    rewrite (in_columns_some _ _ Hk), Hk, Hc. reflexivity.
  - intros cells Hk ->.
    rewrite (top_regions_grouped_eq argsort df "Region" n Hk Hk). reflexivity.
Qed.

(** C4, as amended.  For [n >= 0] the number of returned rows is the smaller
    of [n] and the number of distinct groups (grouped mode) or of rows
    (fallback mode): never more than [n], never more than there are, all of
    them when there are at most [n], and no error is raised. *)
Theorem top_regions_length (df : DataFrame V) (column : string) (n : Z) :
  (0 <= n)%Z ->
  (forall kc vs,
      get_column df "Region" = Some kc ->
      get_column df column = Some (NumCol vs) ->
      column <> "Region"%string ->
      column_length kc = length vs ->
      exists res,
        top_regions argsort df column n = Ok res /\
        fdata_length (tf_data res) =
          Nat.min (Z.to_nat n) (length (distinct_groups (column_labels kc)))) /\
  (forall c,
      in_columns "Region" df = false ->
      get_column df column = Some c ->
      exists res,
        top_regions argsort df column n = Ok res /\
        fdata_length (tf_data res) = Nat.min (Z.to_nat n) (column_length c)).
Proof.
  intros Hn. split.
  - intros kc vs Hk Hc Hne Hlen.
    rewrite (top_regions_grouped_eq argsort df column n Hk Hc).
    assert (E : String.eqb "Region" column = false).
    { apply String.eqb_neq. congruence. }
    rewrite E.
    eexists. split; [reflexivity |]. cbn [tf_data fdata_length].
    rewrite head_length_nonneg by exact Hn. f_equal.
    rewrite sort_rows_desc_length by exact argsort_ok.
    rewrite mean_series_length.
    apply group_means_length.
    rewrite <- Hlen. destruct kc; cbn; rewrite length_map; reflexivity.
  - intros c Hr Hc.
    rewrite (top_regions_fallback_eq argsort df column n Hr Hc).
    eexists. split; [reflexivity |]. cbn [tf_data].
    destruct c as [cells | cells]; cbn [sorted_column head_data fdata_length column_length];
      rewrite head_length_nonneg by exact Hn; f_equal;
      rewrite sort_rows_desc_length by exact argsort_ok;
      apply with_positions_length.
Qed.

End TopRegions.

(** * The grouped branch in exact arithmetic *)

Section GroupedRanking.
Open Scope Q_scope.
Variable argsort : forall A : Type, (A -> A -> bool) -> list A -> list nat.
Hypothesis argsort_ok : argsort_spec argsort.

(** The mean of exact rationals is their sum divided by their count. *)
Lemma mean_value (l : list Q) (m : Q) :
  mean l = Some m -> m == fold_left Qplus l 0 / count_Q l.
Proof.
  destruct l as [| x t]; [discriminate |].
  unfold mean. intros E. injection E as <-.
  exact (Qred_correct _).
Qed.

(** C1, as amended.  In exact rational arithmetic, on a table that has the
    column "Region" and a numeric ranking column other than "Region",
    [top_regions] returns [head n] of a sequence that consists of exactly
    the distinct groups, each paired with the mean of the ranking column
    over the rows of that group (the sum of the group's values divided by
    their count), and that is ordered non-increasing by that mean (groups
    without any value last); for [n >= 0], [head n] is the first [n]
    pairs. *)
Theorem top_regions_grouped (df : DataFrame Q) (kc : column Q)
  (vs : list (option Q)) (column : string) (n : Z) :
  get_column df "Region" = Some kc ->
  get_column df column = Some (NumCol vs) ->
  column <> "Region"%string ->
  exists names full,
    top_regions argsort df column n =
      Ok {| tf_columns := names; tf_data := NumData (head n full) |} /\
    Permutation full (group_means (combine (column_labels kc) vs)) /\
    (forall g m, In (g, Some m) full ->
       m == fold_left Qplus (group_values g (combine (column_labels kc) vs)) 0
            / count_Q (group_values g (combine (column_labels kc) vs))) /\
    StronglySorted (desc_le num_leb) (map snd full) /\
    ((0 <= n)%Z -> head n full = firstn (Z.to_nat n) full).
Proof.
  intros Hk Hc Hne.
  rewrite (top_regions_grouped_eq argsort df column n Hk Hc).
  assert (E : String.eqb "Region" column = false).
  { apply String.eqb_neq. congruence. }
  rewrite E.
  eexists. exists (sort_rows_desc argsort num_leb (mean_series kc vs)).
  assert (Hp : Permutation (sort_rows_desc argsort num_leb (mean_series kc vs))
                           (group_means (combine (column_labels kc) vs))).
  { eapply Permutation_trans;
      [apply sort_rows_desc_perm; exact argsort_ok | apply mean_series_perm]. }
  split; [reflexivity |]. split; [exact Hp |]. split; [| split].
  - intros g m Hin. apply (Permutation_in _ Hp) in Hin.
    unfold group_means in Hin. apply in_map_iff in Hin.
    destruct Hin as [g' [Eg _]]. injection Eg as -> Em.
    apply mean_value. exact Em.
  - apply sort_rows_desc_sorted.
    + exact argsort_ok.
    + apply num_leb_total.
    + apply num_leb_trans.
  - apply head_nonneg.
Qed.
End GroupedRanking.

(** The example table of the specification, ranked by "GHI". *)
Lemma top_regions_grouped_witness :
  exists names full,
    top_regions stable_argsort example_table "GHI" 10 =
      Ok {| tf_columns := names; tf_data := NumData (head 10 full) |} /\
    Permutation full
      (group_means (combine (column_labels (ObjCol [Some "A"; Some "A"; Some "B"]%string))
                            [Some 10%Q; Some 30%Q; Some 20%Q])) /\
    (forall g m, In (g, Some m) full ->
       (m == fold_left Qplus
               (group_values g
                  (combine (column_labels (ObjCol [Some "A"; Some "A"; Some "B"]%string))
                           [Some 10%Q; Some 30%Q; Some 20%Q])) 0
             / count_Q
                 (group_values g
                    (combine (column_labels (ObjCol [Some "A"; Some "A"; Some "B"]%string))
                             [Some 10%Q; Some 30%Q; Some 20%Q])))%Q) /\
    StronglySorted (desc_le num_leb) (map snd full) /\
    ((0 <= 10)%Z -> head 10 full = firstn (Z.to_nat 10) full).
Proof.
  apply (@top_regions_grouped stable_argsort stable_argsort_spec
           example_table (ObjCol [Some "A"; Some "A"; Some "B"]%string)
           [Some 10%Q; Some 30%Q; Some 20%Q] "GHI"%string 10).
  - reflexivity.
  - reflexivity.
  - discriminate.
Defined.

(** C1 as stated fails in the arithmetic the library computes in.  The rows
    of A hold 1, 1e16 and -1e16, whose mean is 1/3, and the row of B holds
    1/4.  In binary64 the running sum of A loses the 1, group-by reports the
    mean 0 for A, and B is ranked first; in exact arithmetic A is ranked
    first with the mean 1/3. *)
Lemma top_regions_binary64_means :
  top_regions stable_argsort rounding_table "GHI" 10 =
    Ok {| tf_columns := ["Region"%string; "GHI"%string];
          tf_data := NumData [(LStr "B"%string, Some 0.25%float);
                              (LStr "A"%string, Some 0%float)] |} /\
  top_regions stable_argsort rounding_table_exact "GHI" 10 =
    Ok {| tf_columns := ["Region"%string; "GHI"%string];
          tf_data := NumData [(LStr "A"%string, Some (1 # 3)%Q);
                              (LStr "B"%string, Some (1 # 4)%Q)] |} /\
  match get_column rounding_table "GHI", get_column rounding_table_exact "GHI" with
  | Some (NumCol fs), Some (NumCol qs) =>
      map (fun c => match c with Some x => float_value x | None => None end) fs = qs
  | _, _ => False
  end.
Proof.
  split; [vm_compute; reflexivity |]. split; vm_compute; reflexivity.
Qed.

(** A table without "Region", ranked by "GHI" with [n = 3]. *)
Lemma top_regions_fallback_witness :
  exists names full,
    top_regions stable_argsort ungrouped_table "GHI" 3 =
      Ok {| tf_columns := names; tf_data := NumData (head 3 full) |} /\
    Permutation full
      (with_positions [Some 10%Q; Some 30%Q; None; Some 30%Q; Some 20%Q]) /\
    (forall i v, In (LPos i, v) full ->
                 nth_error [Some 10%Q; Some 30%Q; None; Some 30%Q; Some 20%Q] i = Some v) /\
    StronglySorted (desc_le num_leb) (map snd full) /\
    ((0 <= 3)%Z -> head 3 full = firstn (Z.to_nat 3) full).
Proof.
  apply (@top_regions_fallback Q _ _ stable_argsort stable_argsort_spec
           ungrouped_table [Some 10%Q; Some 30%Q; None; Some 30%Q; Some 20%Q]
           "GHI"%string 3).
  - reflexivity.
  - reflexivity.
Defined.

(** C2 as stated fails: a sort that meets the library's contract returns,
    for eighteen rows of equal value and [n = 10], rows that are not the
    first ten in their original order. *)
Lemma top_regions_not_stable :
  ~ (forall argsort, argsort_spec argsort ->
     forall (df : DataFrame Q) (cells : list (option Q)) (column : string) (n : Z),
       in_columns "Region" df = false ->
       get_column df column = Some (NumCol cells) ->
       exists names,
         top_regions argsort df column n =
         Ok {| tf_columns := names;
               tf_data := NumData (firstn (Z.to_nat n)
                                     (stable_sort_desc num_leb (with_positions cells))) |}).
Proof.
  intros Hclaim.
  destruct (Hclaim unstable_argsort unstable_argsort_spec flat_table
              (repeat (Some 5%Q) 18) "GHI"%string 10%Z eq_refl eq_refl) as [names E].
  vm_compute in E. discriminate E.
Qed.

(** C3 as stated fails: the ranking column exists, and an error other than
    "column not found" is raised, when the ranking column is the numeric
    column "Region" itself, and when it holds text and the table has a
    column "Region". *)
Lemma top_regions_raises_with_column :
  (get_column coded_table "Region" <> None /\
   top_regions stable_argsort coded_table "Region" 10 = Err (ValueError "Region")) /\
  (get_column commented_table "Comments" <> None /\
   top_regions stable_argsort commented_table "Comments" 10 = Err (TypeError "Comments")).
Proof.
  split; (split; [cbn; discriminate | reflexivity]).
Qed.

(** Five rows and [n = 3]: three rows are returned. *)
Lemma top_regions_length_witness :
  (0 <= 3)%Z /\
  exists res,
    top_regions stable_argsort ungrouped_table "GHI" 3 = Ok res /\
    fdata_length (tf_data res) = Nat.min (Z.to_nat 3) 5.
Proof.
  split; [discriminate |].
  apply (proj2 (@top_regions_length Q _ _ stable_argsort stable_argsort_spec
                  ungrouped_table "GHI"%string 3 ltac:(discriminate))
               (NumCol [Some 10%Q; Some 30%Q; None; Some 30%Q; Some 20%Q])
               eq_refl eq_refl).
Defined.

(** C4 as stated fails for a negative [n]: with [n = -1] a table of five
    rows yields four rows. *)
Lemma top_regions_negative_n :
  exists res,
    top_regions stable_argsort ungrouped_table "GHI" (-1) = Ok res /\
    fdata_length (tf_data res) = 4%nat /\
    ~ (Z.of_nat (fdata_length (tf_data res)) <= -1)%Z.
Proof.
  eexists. split; [reflexivity |]. split; [reflexivity |].
  vm_compute. intros Hle. apply Hle. reflexivity.
Qed.

(** * Summary statistics *)

Section SummaryFacts.
Open Scope Q_scope.

Lemma count_Q_cons (x : Q) (l : list Q) : count_Q (x :: l) == count_Q l + 1.
Proof.
  unfold count_Q. cbn [length]. rewrite Nat2Z.inj_succ, <- Z.add_1_r, inject_Z_plus.
  reflexivity.
Qed.

Lemma count_Q_pos (x : Q) (l : list Q) : 0 < count_Q (x :: l).
Proof.
  unfold count_Q. replace 0 with (inject_Z 0) by reflexivity.
  rewrite <- Zlt_Qlt. cbn [length]. lia.
Qed.

Lemma sum_bounds (lo hi : Q) (l : list Q) (a : Q) :
  (forall x, In x l -> lo <= x <= hi) ->
  a + count_Q l * lo <= fold_left Qplus l a <= a + count_Q l * hi.
Proof.
  revert a. induction l as [| x l IH]; intros a Hb.
  - change (count_Q []) with 0. cbn [fold_left]. lra.
  - cbn [fold_left]. rewrite count_Q_cons.
    destruct (Hb x (or_introl eq_refl)) as [Hlo Hhi].
    destruct (IH (a + x) (fun y Hy => Hb y (or_intror Hy))) as [H1 H2].
    split; lra.
Qed.

Lemma mean_bounds (lo hi : Q) (l : list Q) (avg : Q) :
  (forall x, In x l -> lo <= x <= hi) ->
  mean l = Some avg ->
  lo <= avg <= hi /\ avg == fold_left Qplus l 0 / count_Q l.
Proof.
  intros Hb Hm. destruct l as [| x l]; [discriminate |].
  unfold mean in Hm. injection Hm as <-.
  change (num_div (fold_left num_add (x :: l) num_zero) (length (x :: l)))
    with (Qred (fold_left Qplus (x :: l) 0 / count_Q (x :: l))).
  pose proof (Qred_correct (fold_left Qplus (x :: l) 0 / count_Q (x :: l))) as Hr.
  pose proof (count_Q_pos x l) as Hpos.
  destruct (sum_bounds (x :: l) 0 Hb) as [H1 H2].
  split; [split |]; [| | exact Hr]; rewrite Hr.
  - apply Qle_shift_div_l; [exact Hpos | lra].
  - apply Qle_shift_div_r; [exact Hpos | lra].
Qed.

Lemma fold_max (t : list Q) (x : Q) :
  let r := fold_left (fun m y => if Qle_bool m y then y else m) t x in
  (r = x \/ In r t) /\ x <= r /\ (forall y, In y t -> y <= r).
Proof.
  revert x. induction t as [| z t IH]; intros x; cbn [fold_left].
  - split; [left; reflexivity |]. split; [lra | contradiction].
  - destruct (Qle_bool x z) eqn:E.
    + apply Qle_bool_iff in E.
      destruct (IH z) as [Hin [Hz Hall]]. split; [| split].
      * right. destruct Hin as [-> | Hin]; [left; reflexivity | right; exact Hin].
      * lra.
      * intros y [<- | Hy]; [exact Hz | apply Hall; exact Hy].
    + assert (Hlt : z < x).
      { apply Qnot_le_lt. intros Hle. apply Qle_bool_iff in Hle. congruence. }
      destruct (IH x) as [Hin [Hx Hall]]. split; [| split].
      * destruct Hin as [-> | Hin]; [left; reflexivity | right; right; exact Hin].
      * exact Hx.
      * intros y [<- | Hy]; [lra | apply Hall; exact Hy].
Qed.

Lemma fold_min (t : list Q) (x : Q) :
  let r := fold_left (fun m y => if Qle_bool y m then y else m) t x in
  (r = x \/ In r t) /\ r <= x /\ (forall y, In y t -> r <= y).
Proof.
  revert x. induction t as [| z t IH]; intros x; cbn [fold_left].
  - split; [left; reflexivity |]. split; [lra | contradiction].
  - destruct (Qle_bool z x) eqn:E.
    + apply Qle_bool_iff in E.
      destruct (IH z) as [Hin [Hz Hall]]. split; [| split].
      * right. destruct Hin as [-> | Hin]; [left; reflexivity | right; exact Hin].
      * lra.
      * intros y [<- | Hy]; [exact Hz | apply Hall; exact Hy].
    + assert (Hlt : x < z).
      { apply Qnot_le_lt. intros Hle. apply Qle_bool_iff in Hle. congruence. }
      destruct (IH x) as [Hin [Hx Hall]]. split; [| split].
      * destruct Hin as [-> | Hin]; [left; reflexivity | right; right; exact Hin].
      * exact Hx.
      * intros y [<- | Hy]; [lra | apply Hall; exact Hy].
Qed.

Lemma maximum_spec (l : list Q) (mx : Q) :
  maximum l = Some mx -> In mx l /\ (forall x, In x l -> x <= mx).
Proof.
  destruct l as [| x t]; [discriminate |]. cbn [maximum num_leb Numeric_Q].
  intros E. injection E as <-.
  destruct (fold_max t x) as [Hin [Hx Hall]]. split.
  - destruct Hin as [-> | Hin]; [left; reflexivity | right; exact Hin].
  - intros y [<- | Hy]; [exact Hx | apply Hall; exact Hy].
Qed.

Lemma minimum_spec (l : list Q) (mn : Q) :
  minimum l = Some mn -> In mn l /\ (forall x, In x l -> mn <= x).
Proof.
  destruct l as [| x t]; [discriminate |]. cbn [minimum num_leb Numeric_Q].
  intros E. injection E as <-.
  destruct (fold_min t x) as [Hin [Hx Hall]]. split.
  - destruct Hin as [-> | Hin]; [left; reflexivity | right; exact Hin].
  - intros y [<- | Hy]; [exact Hx | apply Hall; exact Hy].
Qed.

Lemma isort_Q_sorted (l : list Q) : StronglySorted Qle (isort Qle_bool l).
Proof.
  assert (Hs : StronglySorted (fun x y => Qle_bool x y = true) (isort Qle_bool l)).
  { apply isort_sorted.
    - intros a b. exact (num_leb_total (V := Q) a b).
    - intros a b c. exact (num_leb_trans (V := Q) a b c). }
  induction Hs as [| a s Hs IH Hall]; constructor; [exact IH |].
  rewrite Forall_forall in *. intros y Hy. apply Qle_bool_iff, Hall, Hy.
Qed.

Lemma median_spec (l : list Q) (x : Q) (t : list Q) :
  l = x :: t -> exists md, median l = Some md /\ is_median l md.
Proof.
  intros El. unfold median, is_median.
  pose proof (isort_perm Qle_bool l) as Hp.
  pose proof (Permutation_length Hp) as Hlen.
  cbn [num_leb Numeric_Q]. rewrite Hlen.
  assert (Hpos : (0 < length l)%nat) by (subst l; cbn; lia).
  destruct (length l) as [| k] eqn:Ek; [lia |]. rewrite <- Ek in *.
  assert (Hhalf : (length l / 2 < length (isort Qle_bool l))%nat).
  { rewrite Hlen. apply Nat.div_lt; lia. }
  destruct (nth_error (isort Qle_bool l) (length l / 2)) as [b |] eqn:Eb.
  2:{ apply nth_error_None in Eb. lia. }
  destruct (Nat.even (length l)) eqn:Ev.
  - destruct (nth_error (isort Qle_bool l) (length l / 2 - 1)) as [a |] eqn:Ea.
    2:{ apply nth_error_None in Ea. lia. }
    eexists. split; [reflexivity |].
    exists (isort Qle_bool l). split; [exact Hp |]. split; [apply isort_Q_sorted |].
    exists a, b. split; [exact Ea |]. split; [exact Eb |].
    cbn [num_div num_add Numeric_Q]. rewrite Qred_correct. reflexivity.
  - exists b. split; [reflexivity |].
    exists (isort Qle_bool l). split; [exact Hp |]. split; [apply isort_Q_sorted |].
    exact Eb.
Qed.

Lemma is_median_bounds (lo hi : Q) (l : list Q) (md : Q) :
  (forall x, In x l -> lo <= x <= hi) -> is_median l md -> lo <= md <= hi.
Proof.
  intros Hb [s [Hp [_ Hm]]].
  assert (Hs : forall i y, nth_error s i = Some y -> lo <= y <= hi).
  { intros i y Hy. apply Hb. apply (Permutation_in _ Hp).
    eapply nth_error_In. exact Hy. }
  destruct (Nat.even (length l)).
  - destruct Hm as [a [b [Ha [Hb' Hmd]]]].
    pose proof (Hs _ _ Ha). pose proof (Hs _ _ Hb').
    rewrite Hmd. split.
    + apply Qle_shift_div_l; lra.
    + apply Qle_shift_div_r; lra.
  - eapply Hs. exact Hm.
Qed.

(** C5, as amended.  In exact rational arithmetic, for a table whose KPI
    column is numeric and holds at least one value, the four scalars of
    [display_metrics] satisfy min <= median <= max and min <= average <=
    max, where the average is the sum of the values divided by their count,
    the median is the middle value of the sorted data (the mean of the two
    middle values for an even count), and max and min are values of the data
    that bound every value. *)
Theorem display_metrics_bounds (df : DataFrame Q) (cells : list (option Q))
  (kpi_column : string) :
  get_column df kpi_column = Some (NumCol cells) ->
  dropna cells <> [] ->
  exists avg md mx mn,
    display_metrics df kpi_column =
      Ok {| average := Some avg; med := Some md;
            max_value := Some mx; min_value := Some mn |} /\
    (mn <= md <= mx) /\ (mn <= avg <= mx) /\
    avg == fold_left Qplus (dropna cells) 0 / count_Q (dropna cells) /\
    is_median (dropna cells) md /\
    (In mx (dropna cells) /\ forall x, In x (dropna cells) -> x <= mx) /\
    (In mn (dropna cells) /\ forall x, In x (dropna cells) -> mn <= x).
Proof.
  intros Hc Hne. unfold display_metrics. rewrite Hc.
  destruct (dropna cells) as [| x t] eqn:Ex; [congruence |]. clear Hne.
  destruct (maximum (x :: t)) as [mx |] eqn:Emx; [| discriminate].
  destruct (minimum (x :: t)) as [mn |] eqn:Emn; [| discriminate].
  destruct (mean (x :: t)) as [avg |] eqn:Eavg; [| discriminate].
  destruct (median_spec (l := x :: t) eq_refl) as [md [Emd Hmd]]. rewrite Emd.
  destruct (maximum_spec _ Emx) as [Hmx1 Hmx2].
  destruct (minimum_spec _ Emn) as [Hmn1 Hmn2].
  assert (Hb : forall y, In y (x :: t) -> mn <= y <= mx).
  { intros y Hy. split; [apply Hmn2 | apply Hmx2]; exact Hy. }
  destruct (mean_bounds (x :: t) Hb Eavg) as [Havg1 Havg2].
  exists avg, md, mx, mn.
  split; [reflexivity |].
  split; [exact (@is_median_bounds mn mx (x :: t) md Hb Hmd) |].
  split; [exact Havg1 |]. split; [exact Havg2 |]. split; [exact Hmd |].
  split; split; assumption.
Qed.
End SummaryFacts.

(** The four values 10, 30, 30, 20 of [ungrouped_table]. *)
Lemma display_metrics_bounds_witness :
  exists avg md mx mn,
    display_metrics ungrouped_table "GHI" =
      Ok {| average := Some avg; med := Some md;
            max_value := Some mx; min_value := Some mn |} /\
    (mn <= md <= mx)%Q /\ (mn <= avg <= mx)%Q /\
    (avg == fold_left Qplus (dropna [Some 10; Some 30; None; Some 30; Some 20]) 0
            / count_Q (dropna [Some 10; Some 30; None; Some 30; Some 20]))%Q /\
    is_median (dropna [Some 10; Some 30; None; Some 30; Some 20]%Q) md /\
    (In mx (dropna [Some 10; Some 30; None; Some 30; Some 20]%Q) /\
     forall x, In x (dropna [Some 10; Some 30; None; Some 30; Some 20]%Q) -> (x <= mx)%Q) /\
    (In mn (dropna [Some 10; Some 30; None; Some 30; Some 20]%Q) /\
     forall x, In x (dropna [Some 10; Some 30; None; Some 30; Some 20]%Q) -> (mn <= x)%Q).
Proof.
  apply (@display_metrics_bounds ungrouped_table
           [Some 10%Q; Some 30%Q; None; Some 30%Q; Some 20%Q] "GHI"%string).
  - reflexivity.
  - discriminate.
Defined.

(** C5 as stated fails in the arithmetic the library computes in: for three
    values 0.1 the average, 0.1 + 0.1 + 0.1 divided by 3 in binary64, is
    greater than the maximum. *)
Lemma display_metrics_binary64_average :
  exists m avg mx,
    display_metrics tenths "GHI" = Ok m /\
    average m = Some avg /\ max_value m = Some mx /\
    num_leb avg mx = false /\ PrimFloat.ltb mx avg = true.
Proof.
  eexists. eexists. eexists.
  split; [reflexivity |]. split; [reflexivity |]. split; [reflexivity |].
  split; reflexivity.
Qed.

Section Metrics.
Context {V : Type} {HN : Numeric V}.

(** C7.  When the numeric KPI column holds no value, [display_metrics]
    raises nothing and each of its four results is the missing value. *)
Theorem display_metrics_no_values (df : DataFrame V) (cells : list (option V))
  (kpi_column : string) :
  get_column df kpi_column = Some (NumCol cells) ->
  dropna cells = [] ->
  display_metrics df kpi_column =
    Ok {| average := None; med := None; max_value := None; min_value := None |}.
Proof.
  intros Hc He. unfold display_metrics. rewrite Hc, He. reflexivity.
Qed.
End Metrics.

(** A column of two missing values. *)
Lemma display_metrics_no_values_witness :
  display_metrics blank_table "GHI" =
    Ok {| average := None; med := None; max_value := None; min_value := None |}.
Proof.
  apply (@display_metrics_no_values Q _ blank_table [None; None] "GHI"%string).
  - reflexivity.
  - reflexivity.
Defined.

(** * Labels of the ranked table *)

Section Labels.
Context {V : Type} {HN : Numeric V}.
Variable argsort : forall A : Type, (A -> A -> bool) -> list A -> list nat.

(** The labels are the expected ones when the name of the ranking column
    contains neither "Region" nor "index". *)
Lemma top_regions_columns (df : DataFrame V) (column : string) (n : Z)
  (res : TopFrame V) :
  contains "Region" column = false ->
  contains "index" column = false ->
  top_regions argsort df column n = Ok res ->
  tf_columns res = expected_columns (in_columns "Region" df) column.
Proof.
  intros Hr Hi Ht.
  assert (Hcol : rename_column column column = column).
  { unfold rename_column. rewrite Hr, Hi. reflexivity. }
  destruct (in_columns "Region" df) eqn:Hin.
  - destruct (get_column df "Region") as [kc |] eqn:Hk.
    2:{ apply in_columns_none in Hk. congruence. }
    destruct (get_column df column) as [[vs | ts] |] eqn:Hc.
    + rewrite (top_regions_grouped_eq argsort df column n Hk Hc) in Ht.
      destruct (String.eqb "Region" column); [discriminate |].
      injection Ht as <-. cbn [tf_columns map expected_columns].
      rewrite Hcol. reflexivity.
    + unfold top_regions, groupby_mean in Ht. rewrite Hin, Hk, Hc in Ht. discriminate.
    + unfold top_regions, groupby_mean in Ht. rewrite Hin, Hk, Hc in Ht. discriminate.
  - destruct (get_column df column) as [c |] eqn:Hc.
    + rewrite (top_regions_fallback_eq argsort df column n Hin Hc) in Ht.
      injection Ht as <-. cbn [tf_columns map expected_columns].
      rewrite Hcol. unfold default_index_name.
      destruct (String.eqb column "index") eqn:E; [| reflexivity].
      apply String.eqb_eq in E. subst column. discriminate.
    + unfold top_regions, select_column in Ht. rewrite Hin, Hc in Ht. discriminate.
Qed.

(** C8 fails on the code.  The renaming tests whether a label contains
    "Region" or "index", so a ranking column whose name contains one of them
    loses its name: ranking by "UV_index" labels both columns "Index", and
    ranking by "RegionScore" within regions labels both columns "Region". *)
Theorem top_regions_renames_value_column :
  (exists d, top_regions argsort index_table "UV_index" 10 =
             Ok {| tf_columns := ["Index"; "Index"]%string; tf_data := d |}) /\
  expected_columns false "UV_index" = ["Index"; "UV_index"]%string /\
  (exists d, top_regions argsort score_table "RegionScore" 10 =
             Ok {| tf_columns := ["Region"; "Region"]%string; tf_data := d |}) /\
  expected_columns true "RegionScore" = ["Region"; "RegionScore"]%string.
Proof.
  split; [| split; [reflexivity | split; [| reflexivity]]].
  - eexists.
    rewrite (@top_regions_fallback_eq Q _ argsort index_table
               (NumCol [Some 3%Q; Some 7%Q]) "UV_index"%string 10 eq_refl eq_refl).
    reflexivity.
  - eexists.
    rewrite (@top_regions_grouped_eq Q _ argsort score_table
               (ObjCol [Some "A"; Some "B"]%string) [Some 1%Q; Some 2%Q]
               "RegionScore"%string 10 eq_refl eq_refl).
    reflexivity.
Qed.

End Labels.

(** * Groups of equal mean *)

(** With a sort that keeps ties in input order, the two groups of
    [tie_table] come out in ascending key order, although B is encountered
    first. *)
Lemma tie_table_result :
  distinct_groups (column_labels (ObjCol [Some "B"; Some "A"]%string))
    = [LStr "B"; LStr "A"] :> list (label Q) /\
  top_regions stable_argsort tie_table "GHI" 10 =
    Ok {| tf_columns := ["Region"; "GHI"]%string;
          tf_data := NumData [(LStr "A", Some 20%Q); (LStr "B", Some 20%Q)] |}.
Proof. split; reflexivity. Qed.


Section Ties.
Variable argsort : forall A : Type, (A -> A -> bool) -> list A -> list nat.
Hypothesis argsort_ok : argsort_spec argsort.

End Ties.


(** * The input table is left unchanged *)

Section StoreFacts.
Context {V : Type} {HN : Numeric V}.
Variable argsort : forall A : Type, (A -> A -> bool) -> list A -> list nat.

Lemma nth_error_snoc (st : store V) (o : pobject V) :
  nth_error (st ++ [o]) (length st) = Some o.
Proof.
  rewrite nth_error_app2 by lia. rewrite Nat.sub_diag. reflexivity.
Qed.

Lemma nth_error_old (st ext : store V) (r : ref) (o : pobject V) :
  nth_error st r = Some o -> nth_error (st ++ ext) r = Some o.
Proof.
  intros Hr. rewrite nth_error_app1; [exact Hr |].
  apply nth_error_Some. rewrite Hr. discriminate.
Qed.

Lemma update_snoc (st : store V) (o o' : pobject V) :
  update (length st) o' (st ++ [o]) = st ++ [o'].
Proof.
  induction st as [| x st IH]; cbn; [reflexivity |]. rewrite IH. reflexivity.
Qed.

Lemma firstn_app_length (st ext : store V) : firstn (length st) (st ++ ext) = st.
Proof.
  rewrite firstn_app, Nat.sub_diag, firstn_all. cbn. apply app_nil_r.
Qed.

Lemma groupby_st_run (st : store V) (r : ref) (df : DataFrame V) (key : string) :
  nth_error st r = Some (PDataFrame df) ->
  in_columns key df = true ->
  groupby_st r key st = (Ok (length st), st ++ [PGroupBy r key None]).
Proof.
  intros Hr Hk. unfold groupby_st, bindM, read_dataframe. rewrite Hr, Hk. reflexivity.
Qed.

Lemma getitem_st_run (st : store V) (gb src : ref) (df : DataFrame V)
  (key name : string) (sel : option string) :
  nth_error st gb = Some (PGroupBy src key sel) ->
  nth_error st src = Some (PDataFrame df) ->
  getitem_st gb name st =
  if in_columns name df
  then (Ok (length st), st ++ [PGroupBy src key (Some name)])
  else (Err (KeyError name), st).
Proof.
  intros Hg Hs. unfold getitem_st, bindM, read_dataframe. rewrite Hg, Hs.
  destruct (in_columns name df); reflexivity.
Qed.

Lemma mean_st_run (st : store V) (sgb src : ref) (df : DataFrame V)
  (key name : string) :
  nth_error st sgb = Some (PGroupBy src key (Some name)) ->
  nth_error st src = Some (PDataFrame df) ->
  mean_st sgb st =
  match groupby_mean df key name with
  | Ok s => (Ok (length st), st ++ [PFrame1 s])
  | Err e => (Err e, st)
  end.
Proof.
  intros Hg Hs. unfold mean_st, bindM, read_dataframe, lift. rewrite Hg, Hs.
  destruct (groupby_mean df key name); reflexivity.
Qed.

Lemma select_column_st_run (st : store V) (r : ref) (df : DataFrame V) (name : string) :
  nth_error st r = Some (PDataFrame df) ->
  select_column_st r name st =
  match select_column df name with
  | Ok f => (Ok (length st), st ++ [PFrame1 f])
  | Err e => (Err e, st)
  end.
Proof.
  intros Hr. unfold select_column_st, bindM, read_dataframe, lift. rewrite Hr.
  destruct (select_column df name); reflexivity.
Qed.

Lemma sort_values_st_run (st : store V) (r : ref) (f : Frame1 V) :
  nth_error st r = Some (PFrame1 f) ->
  sort_values_st argsort r st =
  (Ok (length st), st ++ [PFrame1 (sort_values_desc argsort f)]).
Proof.
  intros Hr. unfold sort_values_st, bindM, read_frame1. rewrite Hr. reflexivity.
Qed.

Lemma head_st_run (st : store V) (r : ref) (f : Frame1 V) (n : Z) :
  nth_error st r = Some (PFrame1 f) ->
  head_st n r st = (Ok (length st), st ++ [PFrame1 (frame_head n f)]).
Proof.
  intros Hr. unfold head_st, bindM, read_frame1. rewrite Hr. reflexivity.
Qed.

Lemma reset_index_st_run (st : store V) (r : ref) (f : Frame1 V) :
  nth_error st r = Some (PFrame1 f) ->
  reset_index_st r st =
  match reset_index f with
  | Ok t => (Ok (length st), st ++ [PTopFrame t])
  | Err e => (Err e, st)
  end.
Proof.
  intros Hr. unfold reset_index_st, bindM, read_frame1, lift. rewrite Hr.
  destruct (reset_index f); reflexivity.
Qed.

(** Sorting, truncating and re-indexing a labelled column that sits at the
    end of the store, and renaming the columns of the outcome in place. *)
Lemma rank_st_run (st : store V) (f : Frame1 V) (name : string) (n : Z) :
  bindM (bindM (sort_values_st argsort (length st)) (fun sorted =>
                bindM (head_st n sorted) (fun top =>
                reset_index_st top))) (fun top_df =>
         bindM (read_topframe top_df) (fun t =>
         bindM (set_columns_st top_df (map (rename_column name) (tf_columns t))) (fun _ =>
         ret top_df))) (st ++ [PFrame1 f]) =
  let sorted := sort_values_desc argsort f in
  let top := frame_head n sorted in
  match reset_index top with
  | Ok t =>
      (Ok (S (S (S (length st)))),
       st ++ [PFrame1 f; PFrame1 sorted; PFrame1 top;
              PTopFrame (set_columns (map (rename_column name) (tf_columns t)) t)])
  | Err e => (Err e, st ++ [PFrame1 f; PFrame1 sorted; PFrame1 top])
  end.
Proof.
  cbn zeta. unfold bindM at 1 2.
  rewrite (@sort_values_st_run (st ++ [PFrame1 f]) (length st) f (nth_error_snoc st _)).
  unfold bindM at 1.
  rewrite (@head_st_run _ _ _ n (nth_error_snoc (st ++ [PFrame1 f]) _)).
  rewrite (@reset_index_st_run _ _ _ (nth_error_snoc ((st ++ [PFrame1 f]) ++ _) _)).
  destruct (reset_index (frame_head n (sort_values_desc argsort f))) as [t | e].
  - unfold bindM, read_topframe, set_columns_st, write, ret.
    rewrite nth_error_snoc. unfold bindM, read_topframe. rewrite nth_error_snoc.
    rewrite update_snoc. rewrite !length_app. cbn [length].
    rewrite <- !app_assoc. cbn [app].
    f_equal. f_equal. lia.
  - rewrite <- !app_assoc. reflexivity.
Qed.
End StoreFacts.

Section Purity.
Context {V : Type} {HN : Numeric V}.
Variable argsort : forall A : Type, (A -> A -> bool) -> list A -> list nat.

Lemma bindM_assoc {A B C : Type} (m : store V -> result A * store V)
  (f : A -> store V -> result B * store V) (k : B -> store V -> result C * store V)
  (st : store V) :
  bindM (bindM m f) k st = bindM m (fun x => bindM (f x) k) st.
Proof.
  unfold bindM. destruct (m st) as [[a | e] st']; reflexivity.
Qed.

Lemma rank_run_ok (st st' : store V) (ext : list (pobject V)) (r : ref)
  (df : DataFrame V) (f : Frame1 V) (name : string) (n : Z) :
  nth_error st r = Some (PDataFrame df) ->
  st' = st ++ ext ->
  (top_regions argsort df name n =
   t <- reset_index (frame_head n (sort_values_desc argsort f)) ;;
   Ok (set_columns (map (rename_column name) (tf_columns t)) t)) ->
  run_ok argsort st r df name n
    (bindM (bindM (sort_values_st argsort (length st')) (fun sorted =>
                   bindM (head_st n sorted) (fun top =>
                   reset_index_st top))) (fun top_df =>
            bindM (read_topframe top_df) (fun t =>
            bindM (set_columns_st top_df (map (rename_column name) (tf_columns t))) (fun _ =>
            ret top_df))) (st' ++ [PFrame1 f])).
Proof.
  intros Hr -> Hpure. rewrite rank_st_run. cbn zeta.
  unfold run_ok. rewrite Hpure.
  destruct (reset_index (frame_head n (sort_values_desc argsort f))) as [t | e];
    cbn [fst snd bind]; rewrite <- !app_assoc.
  - split; [apply firstn_app_length |]. split; [apply nth_error_old; exact Hr |].
    eexists. split; [| reflexivity].
    rewrite app_assoc, nth_error_app2 by lia.
    replace (S (S (S (length (st ++ ext)))) - length (st ++ ext))%nat with 3%nat by lia.
    reflexivity.
  - split; [apply firstn_app_length |]. split; [apply nth_error_old; exact Hr |].
    reflexivity.
Qed.

(** C9.  A run of [top_regions] on a table held in the store allocates new
    objects and changes none that existed before: the store it leaves
    starts with the store it found, the table is still there unchanged, and
    what it returns (or raises) is [top_regions] of the table, the column
    name and [n] alone. *)
Theorem top_regions_preserves_table (st : store V) (r : ref) (df : DataFrame V)
  (name : string) (n : Z) :
  nth_error st r = Some (PDataFrame df) ->
  firstn (length st) (snd (top_regions_st argsort r name n st)) = st /\
  nth_error (snd (top_regions_st argsort r name n st)) r = Some (PDataFrame df) /\
  match fst (top_regions_st argsort r name n st) with
  | Ok r' => exists t,
      nth_error (snd (top_regions_st argsort r name n st)) r' = Some (PTopFrame t) /\
      top_regions argsort df name n = Ok t
  | Err e => top_regions argsort df name n = Err e
  end.
Proof.
  intros Hr. change (run_ok argsort st r df name n (top_regions_st argsort r name n st)).
  unfold top_regions_st. unfold bindM at 1. unfold read_dataframe at 1. rewrite Hr.
  destruct (in_columns "Region" df) eqn:Hin.
  - destruct (get_column df "Region") as [kc |] eqn:Hk.
    2:{ apply in_columns_none in Hk. congruence. }
    rewrite bindM_assoc. unfold bindM at 1.
    erewrite groupby_st_run; [| exact Hr | exact Hin].
    rewrite bindM_assoc. unfold bindM at 1.
    erewrite getitem_st_run; [| apply nth_error_snoc | apply nth_error_old; exact Hr].
    destruct (in_columns name df) eqn:Hn.
    + rewrite bindM_assoc. unfold bindM at 1.
      erewrite mean_st_run;
        [| apply nth_error_snoc | apply nth_error_old, nth_error_old; exact Hr].
      destruct (groupby_mean df "Region" name) as [s | e] eqn:Hg.
      * eapply rank_run_ok
          with (ext := [PGroupBy r "Region" None; PGroupBy r "Region" (Some name)]);
          [exact Hr | rewrite <- app_assoc; reflexivity |].
        unfold top_regions. rewrite Hin, Hg. reflexivity.
      * unfold run_ok. cbn [fst snd]. rewrite <- app_assoc.
        split; [apply firstn_app_length |]. split; [apply nth_error_old; exact Hr |].
        unfold top_regions. rewrite Hin, Hg. reflexivity.
    + unfold run_ok. cbn [fst snd].
      split; [apply firstn_app_length |]. split; [apply nth_error_old; exact Hr |].
      apply in_columns_none in Hn.
      unfold top_regions, groupby_mean. rewrite Hin, Hk, Hn. reflexivity.
  - rewrite bindM_assoc. unfold bindM at 1.
    erewrite select_column_st_run; [| exact Hr].
    destruct (select_column df name) as [f | e] eqn:Hs.
    + eapply rank_run_ok with (ext := []);
        [exact Hr | rewrite app_nil_r; reflexivity |].
      unfold top_regions. rewrite Hin, Hs. reflexivity.
    + unfold run_ok. cbn [fst snd].
      split; [rewrite <- (app_nil_r st) at 2; apply firstn_app_length |].
      split; [exact Hr |].
      unfold top_regions. rewrite Hin, Hs. reflexivity.
Qed.
End Purity.

(** A store that holds the example table alone. *)
Lemma top_regions_preserves_table_witness :
  firstn (length [PDataFrame example_table])
    (snd (top_regions_st stable_argsort 0%nat "GHI" 10 [PDataFrame example_table]))
    = [PDataFrame example_table] /\
  nth_error (snd (top_regions_st stable_argsort 0%nat "GHI" 10 [PDataFrame example_table])) 0%nat
    = Some (PDataFrame example_table) /\
  match fst (top_regions_st stable_argsort 0%nat "GHI" 10 [PDataFrame example_table]) with
  | Ok r' => exists t,
      nth_error (snd (top_regions_st stable_argsort 0%nat "GHI" 10 [PDataFrame example_table])) r'
        = Some (PTopFrame t) /\
      top_regions stable_argsort example_table "GHI" 10 = Ok t
  | Err e => top_regions stable_argsort example_table "GHI" 10 = Err e
  end.
Proof.
  apply (@top_regions_preserves_table Q _ stable_argsort
           [PDataFrame example_table] 0%nat example_table "GHI"%string 10).
  reflexivity.
Defined.

(** * When the sort keeps ties in input order *)

Section StableFacts.
Context {B : Type} (c : B -> B -> bool).
Hypothesis c_total : forall x y, c x y = true \/ c y x = true.
Hypothesis c_trans : forall x y z, c x y = true -> c y z = true -> c x z = true.

Let flip_c (x y : B) : bool := c y x.

Lemma c_false (x y : B) : c x y = false -> c y x = true.
Proof. intros E. destruct (c_total x y) as [H | H]; [congruence | exact H]. Qed.

(** Inserting an earlier element [b] and a later element [a] commute. *)
Lemma insert_insert_after (a b : B) (l : list B) :
  insert c b (insert_after c a l) = insert_after c a (insert c b l).
Proof.
  induction l as [| y t IH]; cbn [insert insert_after].
  - destruct (c b a); reflexivity.
  - destruct (c y a) eqn:Hya; cbn [insert].
    + destruct (c b y) eqn:Hby; cbn [insert_after].
      * rewrite (@c_trans _ _ _ Hby Hya), Hya. reflexivity.
      * rewrite Hya, IH. reflexivity.
    + destruct (c b y) eqn:Hby; cbn [insert_after].
      * destruct (c b a) eqn:Hba; [rewrite Hya |]; reflexivity.
      * rewrite Hya.
        assert (Hba : c b a = false).
        { destruct (c b a) eqn:Hba; [| reflexivity].
          rewrite (@c_trans _ _ _ Hba (@c_false _ _ Hya)) in Hby. discriminate. }
        rewrite Hba. cbn [insert]. reflexivity.
Qed.

Lemma isort_snoc (l : list B) (a : B) :
  isort c (l ++ [a]) = insert_after c a (isort c l).
Proof.
  induction l as [| b l IH]; [reflexivity |].
  cbn [app]. unfold isort in *. cbn [fold_right]. rewrite IH.
  apply insert_insert_after.
Qed.

Lemma insert_after_split (a : B) (l : list B) :
  StronglySorted (fun x y => c x y = true) l ->
  exists l1 l2,
    l = l1 ++ l2 /\
    (forall y, In y l1 -> c y a = true) /\
    (forall y, In y l2 -> c y a = false) /\
    insert_after c a l = l1 ++ a :: l2.
Proof.
  induction 1 as [| y t Hs IH Hall].
  - exists [], []. repeat split; intros ? [].
  - cbn [insert_after]. destruct (c y a) eqn:Hya.
    + destruct IH as [l1 [l2 [-> [H1 [H2 E]]]]].
      exists (y :: l1), l2. split; [reflexivity |]. split; [| split].
      * intros z [<- | Hz]; [exact Hya | apply H1; exact Hz].
      * exact H2.
      * rewrite E. reflexivity.
    + exists [], (y :: t). split; [reflexivity |]. split; [intros ? [] | split].
      * intros z [<- | Hz]; [exact Hya |].
        destruct (c z a) eqn:Hza; [| reflexivity].
        rewrite Forall_forall in Hall.
        rewrite (@c_trans _ _ _ (Hall z Hz) Hza) in Hya. discriminate.
      * reflexivity.
Qed.

Lemma insert_flip_prefix (a : B) (p q : list B) :
  (forall y, In y p -> c y a = false) ->
  insert flip_c a (p ++ q) = p ++ insert flip_c a q.
Proof.
  induction p as [| y p IH]; intros Hp; [reflexivity |].
  cbn [app insert]. unfold flip_c at 1. rewrite (Hp y (or_introl eq_refl)).
  rewrite IH; [reflexivity |]. intros z Hz. apply Hp. right. exact Hz.
Qed.

Lemma insert_flip_head (a : B) (q : list B) :
  (forall y, In y q -> c y a = true) ->
  insert flip_c a q = a :: q.
Proof.
  destruct q as [| y q]; intros Hq; [reflexivity |].
  cbn [insert]. unfold flip_c. rewrite (Hq y (or_introl eq_refl)). reflexivity.
Qed.

Lemma rev_insert_after (a : B) (l : list B) :
  StronglySorted (fun x y => c x y = true) l ->
  rev (insert_after c a l) = insert flip_c a (rev l).
Proof.
  intros Hs. destruct (insert_after_split a Hs) as [l1 [l2 [-> [H1 [H2 E]]]]].
  rewrite E, !rev_app_distr. cbn [rev]. rewrite <- app_assoc. cbn [app].
  rewrite insert_flip_prefix.
  - rewrite insert_flip_head; [reflexivity |].
    intros y Hy. apply H1. apply in_rev. exact Hy.
  - intros y Hy. apply H2. apply in_rev. exact Hy.
Qed.

(** Sorting the reversed list in ascending order and reversing the outcome
    is the descending insertion sort, which keeps ties in input order. *)
Lemma rev_isort_rev (l : list B) : rev (isort c (rev l)) = isort flip_c l.
Proof.
  induction l as [| a l IH]; [reflexivity |].
  cbn [rev]. rewrite isort_snoc, rev_insert_after.
  - rewrite IH. reflexivity.
  - apply isort_sorted; assumption.
Qed.
End StableFacts.

Lemma isort_map {A B : Type} (cA : A -> A -> bool) (cB : B -> B -> bool)
  (f : A -> B) (l : list A) :
  (forall x y, cB (f x) (f y) = cA x y) ->
  isort cB (map f l) = map f (isort cA l).
Proof.
  intros Hf. induction l as [| x l IH]; [reflexivity |].
  cbn [map]. unfold isort in *. cbn [fold_right]. rewrite IH.
  generalize (fold_right (insert cA) [] l). intros s.
  induction s as [| y s IHs]; [reflexivity |].
  cbn [map insert]. rewrite Hf. destruct (cA x y); [reflexivity |].
  cbn [map]. rewrite IHs. reflexivity.
Qed.

Lemma enumerate_map {A B : Type} (f : A -> B) (l : list A) :
  enumerate (map f l) = map (fun p => (fst p, f (snd p))) (enumerate l).
Proof.
  unfold enumerate. rewrite length_map. generalize 0%nat.
  induction l as [| x l IH]; intros k; [reflexivity |].
  cbn [length seq map combine fst snd]. rewrite IH. reflexivity.
Qed.

(** [take] along [stable_argsort] is the insertion sort of the rows by
    their values. *)
Lemma take_stable_argsort {K A : Type} (le : A -> A -> bool) (l : list (K * A)) :
  take (stable_argsort le (map snd l)) l =
  isort (fun p q => le (snd p) (snd q)) l.
Proof.
  unfold stable_argsort. rewrite enumerate_map.
  rewrite (isort_map (fun p q : nat * (K * A) => le (snd (snd p)) (snd (snd q)))
             (on_snd le) (fun p => (fst p, snd (snd p)))) by reflexivity.
  rewrite map_map. cbn [fst].
  rewrite take_pairs.
  - rewrite <- (isort_map (fun p q : nat * (K * A) => le (snd (snd p)) (snd (snd q)))
                  (fun p q : K * A => le (snd p) (snd q)) snd) by reflexivity.
    rewrite enumerate_snd. reflexivity.
  - intros p Hp. apply enumerate_nth.
    eapply Permutation_in; [apply isort_perm | exact Hp].
Qed.

Section StableRows.
Context {K A : Type} (le : A -> A -> bool).
Hypothesis le_total : forall x y, le x y = true \/ le y x = true.
Hypothesis le_trans : forall x y z, le x y = true -> le y z = true -> le x z = true.

Let by_value (p q : K * A) : bool := le (snd p) (snd q).
Let by_value_desc (p q : K * A) : bool := le (snd q) (snd p).
Let wrap (r : K * A) : K * option A := (fst r, Some (snd r)).
Let by_cell_desc (p q : K * option A) : bool := desc_leb le (snd p) (snd q).

Lemma insert_wrapped (a : K * A) (s : list (K * A)) (m : list (K * option A)) :
  Forall (fun r => snd r = None) m ->
  insert by_cell_desc (wrap a) (map wrap s ++ m) =
  map wrap (insert by_value_desc a s) ++ m.
Proof.
  intros Hm. induction s as [| y s IH]; cbn [map app insert].
  - destruct m as [| [k o] m]; [reflexivity |].
    inversion Hm as [| ? ? Ho _]; subst. cbn in Ho. subst o. reflexivity.
  - unfold by_cell_desc at 1, by_value_desc at 1. cbn [wrap snd desc_leb].
    destruct (le (snd y) (snd a)); [reflexivity |].
    cbn [map app]. rewrite IH. reflexivity.
Qed.

Lemma insert_missing (k : K) (s : list (K * A)) (m : list (K * option A)) :
  Forall (fun r => snd r = None) m ->
  insert by_cell_desc (k, None) (map wrap s ++ m) = map wrap s ++ (k, None) :: m.
Proof.
  intros Hm. induction s as [| y s IH]; cbn [map app insert].
  - destruct m as [| [k' o] m]; [reflexivity |].
    inversion Hm as [| ? ? Ho _]; subst. cbn in Ho. subst o. reflexivity.
  - unfold by_cell_desc at 1. cbn [wrap snd desc_leb]. rewrite IH. reflexivity.
Qed.

Lemma missing_all_none (rows : list (K * option A)) :
  Forall (fun r => snd r = None) (missing rows).
Proof.
  apply Forall_forall. intros [k o] Hin. apply filter_In in Hin.
  destruct Hin as [_ Ho]. cbn in *. destruct o; [discriminate | reflexivity].
Qed.

Lemma stable_sort_desc_split (rows : list (K * option A)) :
  stable_sort_desc le rows =
  map wrap (isort by_value_desc (non_missing rows)) ++ missing rows.
Proof.
  unfold stable_sort_desc. fold by_cell_desc.
  induction rows as [| [k [x |]] rows IH]; [reflexivity | |].
  - unfold isort in *. cbn [fold_right]. rewrite IH.
    change (k, Some x) with (wrap (k, x)).
    rewrite insert_wrapped by apply missing_all_none. reflexivity.
  - unfold isort in *. cbn [fold_right]. rewrite IH.
    rewrite insert_missing by apply missing_all_none. reflexivity.
Qed.

(** With [stable_argsort], the library's descending sort is the stable
    descending sort of the specification. *)
Theorem sort_rows_desc_stable (rows : list (K * option A)) :
  sort_rows_desc stable_argsort le rows = stable_sort_desc le rows.
Proof.
  unfold sort_rows_desc. rewrite stable_sort_desc_split.
  f_equal. f_equal.
  rewrite take_stable_argsort.
  apply (@rev_isort_rev (K * A) by_value).
  - intros x y. apply le_total.
  - intros x y z. apply le_trans.
Qed.
End StableRows.

(** With a sort that keeps ties in input order, the fallback branch does
    return the rows in stable descending order. *)
Lemma top_regions_fallback_stable {V : Type} {HN : Numeric V} {HO : NumericOrder V}
  (df : DataFrame V) (cells : list (option V)) (name : string) (n : Z) :
  in_columns "Region" df = false ->
  get_column df name = Some (NumCol cells) ->
  exists names,
    top_regions stable_argsort df name n =
    Ok {| tf_columns := names;
          tf_data := NumData (head n (stable_sort_desc num_leb (with_positions cells))) |}.
Proof.
  intros Hr Hc. rewrite (top_regions_fallback_eq stable_argsort df name n Hr Hc).
  cbn [sorted_column head_data]. eexists.
  rewrite sort_rows_desc_stable; [reflexivity | apply num_leb_total | apply num_leb_trans].
Qed.

(** With such a sort, groups of equal mean come out in ascending key
    order, the order in which group-by hands them over. *)
Lemma top_regions_grouped_stable {V : Type} {HN : Numeric V} {HO : NumericOrder V}
  (df : DataFrame V) (kc : column V) (vs : list (option V)) (name : string) (n : Z) :
  get_column df "Region" = Some kc ->
  get_column df name = Some (NumCol vs) ->
  name <> "Region"%string ->
  exists names,
    top_regions stable_argsort df name n =
    Ok {| tf_columns := names;
          tf_data := NumData (head n (stable_sort_desc num_leb (mean_series kc vs))) |}.
Proof.
  intros Hk Hc Hne. rewrite (top_regions_grouped_eq stable_argsort df name n Hk Hc).
  assert (E : String.eqb "Region" name = false).
  { apply String.eqb_neq. congruence. }
  rewrite E. eexists.
  rewrite sort_rows_desc_stable; [reflexivity | apply num_leb_total | apply num_leb_trans].
Qed.

(** * The box plot *)

Section BoxPlotFacts.
Context {V : Type} {HN : Numeric V}.

Lemma truthy_some (s : string) : truthy (Some s) = true <-> s <> ""%string.
Proof.
  cbn [truthy]. rewrite negb_true_iff. apply String.eqb_neq.
Qed.

(** X1.  [plot_boxplot] never asks for a grouping by a column that the table
    does not have: a named x-axis column of the figure is a column of the
    table.  A column of the table is taken as it is, an absent one is
    replaced by no grouping, and colour and legend follow the x-axis. *)
Theorem plot_boxplot_grouping (df : DataFrame V) (y_column : string)
  (x_column : option string) :
  let fig := plot_boxplot df y_column x_column in
  (forall s, box_x fig = Some s -> s <> ""%string -> in_columns s df = true) /\
  (forall s, x_column = Some s -> in_columns s df = true -> box_x fig = Some s) /\
  (forall s, x_column = Some s -> s <> ""%string -> in_columns s df = false ->
             box_x fig = None) /\
  box_color fig = (if truthy (box_x fig) then box_x fig else None) /\
  box_showlegend fig = truthy (box_x fig) /\
  box_y fig = y_column.
Proof.
  cbn zeta. unfold plot_boxplot. cbn [box_x box_color box_showlegend box_y].
  destruct x_column as [x |]; [destruct (truthy (Some x)) eqn:Ht; cbn [andb];
    [destruct (in_columns x df) eqn:Hin; cbn [negb]; [rewrite Ht | cbn [truthy]]
    | rewrite Ht] | cbn [truthy andb]];
    repeat split; intros;
    repeat match goal with
           | E : Some _ = Some _ |- _ => injection E as E; subst
           end;
    try congruence;
    match goal with
    | Hs : _ <> ""%string |- _ => apply truthy_some in Hs; congruence
    end.
Qed.
End BoxPlotFacts.

(** * The data summary *)

Section SummaryCounts.
Context {V : Type} {HN : Numeric V}.

Lemma filter_length_le {A : Type} (f : A -> bool) (l : list A) :
  (length (filter f l) <= length l)%nat.
Proof.
  induction l as [| x l IH]; cbn; [lia |]. destruct (f x); cbn; lia.
Qed.

Lemma count_missing_le (c : column V) : (count_missing c <= column_length c)%nat.
Proof. destruct c; cbn; apply filter_length_le. Qed.

Lemma filter_missing_zero {A : Type} (cells : list (option A)) :
  length (filter is_missing cells) = 0%nat <-> forall v, In v cells -> v <> None.
Proof.
  induction cells as [| [x |] cells IH]; cbn.
  - split; [intros _ v [] | reflexivity].
  - rewrite IH. split.
    + intros Hc v [<- | Hv]; [discriminate | apply Hc; exact Hv].
    + intros Hc v Hv. apply Hc. right. exact Hv.
  - split; [discriminate |]. intros Hc. exfalso. apply (Hc None); auto.
Qed.

Lemma count_missing_zero (c : column V) : count_missing c = 0%nat <-> no_missing c.
Proof. destruct c; cbn; apply filter_missing_zero. Qed.

Lemma dtype_counts (df : DataFrame V) :
  (length (numeric_cols df) + length (categorical_cols df) = length (columns df))%nat.
Proof.
  unfold numeric_cols, categorical_cols, columns.
  induction df as [| [name [cells | cells]] df IH]; cbn; lia.
Qed.

Lemma missing_sum_le (df : DataFrame V) (rows : nat) :
  (forall nc, In nc df -> column_length (snd nc) = rows) ->
  (list_sum (map (fun nc => count_missing (snd nc)) df) <= rows * length df)%nat.
Proof.
  induction df as [| nc df IH]; intros Hr; cbn [map list_sum fold_right length]; [lia |].
  pose proof (count_missing_le (snd nc)) as Hc.
  rewrite (Hr nc (or_introl eq_refl)) in Hc.
  specialize (IH (fun x Hx => Hr x (or_intror Hx))).
  fold (list_sum (map (fun nc => count_missing (snd nc)) df)).
  rewrite Nat.mul_succ_r. lia.
Qed.

Lemma list_sum_zero (l : list nat) :
  list_sum l = 0%nat <-> forall x, In x l -> x = 0%nat.
Proof.
  induction l as [| a l IH].
  - split; [intros _ x [] | reflexivity].
  - change (list_sum (a :: l)) with (a + list_sum l)%nat. split.
    + intros Hs x [<- | Hx]; [lia | apply IH; [lia | exact Hx]].
    + intros Hz. pose proof (Hz a (or_introl eq_refl)) as Ha.
      assert (Hl : list_sum l = 0%nat).
      { apply IH. intros x Hx. apply Hz. right. exact Hx. }
      lia.
Qed.

(** X2.  The counts of [get_data_summary] are consistent: the numeric and
    the text columns are among the columns; on a rectangular table the
    missing values are at most rows times columns; and the count of missing
    values is zero exactly when no column has a missing cell. *)
Theorem get_data_summary_counts (df : DataFrame V) :
  let summary := get_data_summary df in
  (numeric_columns summary + categorical_columns summary <= total_columns summary)%nat /\
  (rectangular df ->
   (missing_values_count summary <= total_rows summary * total_columns summary)%nat) /\
  (missing_values_count summary = 0%nat <-> forall nc, In nc df -> no_missing (snd nc)).
Proof.
  cbn zeta. unfold get_data_summary.
  cbn [numeric_columns categorical_columns total_columns total_rows missing_values_count].
  split; [rewrite dtype_counts; lia |]. split.
  - intros Hr. unfold columns. rewrite length_map. apply missing_sum_le. exact Hr.
  - rewrite list_sum_zero. split.
    + intros Hz nc Hin. apply count_missing_zero. apply Hz.
      apply in_map_iff. exists nc. auto.
    + intros Hn x Hx. apply in_map_iff in Hx. destruct Hx as [nc [<- Hin]].
      apply count_missing_zero, Hn, Hin.
Qed.
End SummaryCounts.


(** * The sidebar and the page *)

Section SidebarFacts.
Context {V : Type} {HN : Numeric V}.

Lemma selectbox_in (first : string) (others : list string) (choice : nat) :
  In (selectbox first others choice) (first :: others).
Proof.
  unfold selectbox.
  destruct (Nat.lt_ge_cases choice (length (first :: others))) as [Hlt | Hge].
  - apply nth_In. exact Hlt.
  - rewrite nth_overflow by exact Hge. left. reflexivity.
Qed.

Lemma numeric_cols_in (df : DataFrame V) (name : string) :
  In name (numeric_cols df) <-> exists cells, In (name, NumCol cells) df.
Proof.
  unfold numeric_cols. rewrite in_flat_map. split.
  - intros [[c [cells | cells]] [Hin Hn]]; cbn in Hn; [| contradiction].
    destruct Hn as [<- | []]. exists cells. exact Hin.
  - intros [cells Hin]. exists (name, NumCol cells). split; [exact Hin | left; reflexivity].
Qed.

Lemma categorical_cols_in (df : DataFrame V) (name : string) :
  In name (categorical_cols df) <-> exists cells, In (name, ObjCol cells) df.
Proof.
  unfold categorical_cols. rewrite in_flat_map. split.
  - intros [[c [cells | cells]] [Hin Hn]]; cbn in Hn; [contradiction |].
    destruct Hn as [<- | []]. exists cells. exact Hin.
  - intros [cells Hin]. exists (name, ObjCol cells). split; [exact Hin | left; reflexivity].
Qed.

(** Under unique labels, lookup by name finds the column of that name. *)
Lemma get_column_unique (df : DataFrame V) (name : string) (c : column V) :
  NoDup (columns df) -> In (name, c) df -> get_column df name = Some c.
Proof.
  unfold columns. induction df as [| [n0 c0] df IH]; intros Hnd Hin; [contradiction |].
  cbn [map fst] in Hnd. inversion Hnd as [| ? ? Hnot Hnd']; subst.
  cbn [get_column]. destruct Hin as [E | Hin].
  - injection E as -> ->. rewrite String.eqb_refl. reflexivity.
  - destruct (String.eqb name n0) eqn:E.
    + apply String.eqb_eq in E. subst n0. exfalso. apply Hnot.
      apply in_map_iff. exists (name, c). split; [reflexivity | exact Hin].
    + apply IH; assumption.
Qed.

Lemma in_columns_in (df : DataFrame V) (name : string) (c : column V) :
  In (name, c) df -> in_columns name df = true.
Proof.
  intros Hin. unfold in_columns, columns. apply existsb_exists.
  exists name. split; [| apply String.eqb_refl].
  apply in_map_iff. exists (name, c). split; [reflexivity | exact Hin].
Qed.

(** What the sidebar returns when it does not halt. *)
Lemma setup_sidebar_done (files : disk V) (s : Session) (df : DataFrame V)
  (kpi : string) (x : option string) :
  setup_sidebar files s = Done (df, kpi, x) ->
  (exists path, In path ("data/benin_raw.csv"%string :: csv_files) /\ files path = Some df) /\
  In kpi (numeric_cols df) /\
  match x with
  | None => True
  | Some c => c <> "None"%string /\ In c (categorical_cols df)
  end.
Proof.
  unfold setup_sidebar, load_data.
  pose proof (selectbox_in "data/benin_raw.csv" csv_files (csv_select s)) as Hcsv.
  destruct (files (selectbox "data/benin_raw.csv" csv_files (csv_select s)))
    as [df0 |] eqn:Hf; [| discriminate].
  destruct (numeric_cols df0) as [| first others] eqn:Hnum; [discriminate |].
  intros E. injection E as -> <- <-.
  split; [eexists; split; [exact Hcsv | exact Hf] |].
  split; [rewrite Hnum; apply selectbox_in |].
  destruct (categorical_cols df) as [| c0 cats] eqn:Hcat; [exact I |].
  destruct (String.eqb (selectbox "None" (c0 :: cats) (x_select s)) "None") eqn:E; [exact I |].
  split; [apply String.eqb_neq; exact E |].
  destruct (selectbox_in "None" (c0 :: cats) (x_select s)) as [Hn | Hin]; [| exact Hin].
  rewrite <- Hn, String.eqb_refl in E. discriminate.
Qed.

(** X3.  The sidebar halts exactly when the selected file is missing, with
    the message that names the file, or when the loaded table has no
    numeric column (the count that [get_data_summary] reports as
    [numeric_columns] is zero); otherwise it hands over the loaded table. *)
Theorem setup_sidebar_halts (files : disk V) (s : Session) :
  let csv_file := selectbox "data/benin_raw.csv" csv_files (csv_select s) in
  In csv_file ("data/benin_raw.csv"%string :: csv_files) /\
  match load_data files csv_file with
  | None => setup_sidebar files s = Stopped _ ("File not found: " ++ csv_file)
  | Some df =>
      (numeric_columns (get_data_summary df) = 0%nat ->
       setup_sidebar files s =
         Stopped _ "No numeric columns available for KPI selection.") /\
      (numeric_columns (get_data_summary df) <> 0%nat ->
       exists kpi x, setup_sidebar files s = Done (df, kpi, x))
  end.
Proof.
  cbn zeta. split; [apply selectbox_in |].
  unfold setup_sidebar.
  destruct (load_data files (selectbox "data/benin_raw.csv" csv_files (csv_select s)))
    as [df |]; [| reflexivity].
  cbn [get_data_summary numeric_columns].
  destruct (numeric_cols df) as [| first others]; cbn [length]; split.
  - reflexivity.
  - intros Hne. exfalso. apply Hne. reflexivity.
  - discriminate.
  - intros _. eexists. eexists. reflexivity.
Qed.

(** X4.  What the sidebar hands over fits the table, whose labels are
    unique: the KPI is a numeric column of the table, and the grouping is
    either none or a text column of the table that is not named "None"
    (the option "None" stands for no grouping, so a column of that name
    cannot be chosen). *)
Theorem setup_sidebar_selection (files : disk V) (s : Session) (df : DataFrame V)
  (kpi : string) (x : option string) :
  setup_sidebar files s = Done (df, kpi, x) ->
  NoDup (columns df) ->
  (exists cells, get_column df kpi = Some (NumCol cells)) /\
  match x with
  | None => True
  | Some c => c <> "None"%string /\ exists cells, get_column df c = Some (ObjCol cells)
  end.
Proof.
  intros Hs Hnd. destruct (setup_sidebar_done files s Hs) as [_ [Hk Hx]]. split.
  - apply numeric_cols_in in Hk. destruct Hk as [cells Hin].
    exists cells. apply get_column_unique; assumption.
  - destruct x as [c |]; [| exact I]. destruct Hx as [Hne Hc]. split; [exact Hne |].
    apply categorical_cols_in in Hc. destruct Hc as [cells Hin].
    exists cells. apply get_column_unique; assumption.
Qed.

(** X5.  The grouping that the sidebar hands over is the x-axis of the box
    plot as it is: the fallback of [plot_boxplot] for an absent column never
    applies to it. *)
Theorem sidebar_grouping_is_plotted (files : disk V) (s : Session) (df : DataFrame V)
  (kpi : string) (x : option string) :
  setup_sidebar files s = Done (df, kpi, x) ->
  box_x (plot_boxplot df kpi x) = x.
Proof.
  intros Hs. destruct (setup_sidebar_done files s Hs) as [_ [_ Hx]].
  unfold plot_boxplot. cbn [box_x].
  destruct x as [c |]; [| reflexivity]. destruct Hx as [_ Hc].
  apply categorical_cols_in in Hc. destruct Hc as [cells Hin].
  rewrite (in_columns_in _ _ _ Hin). cbn [negb]. rewrite andb_false_r. reflexivity.
Qed.
End SidebarFacts.

Section MainFacts.
Context {V : Type} {HN : Numeric V}.
Variable argsort : forall A : Type, (A -> A -> bool) -> list A -> list nat.

(** The ranked table of a numeric column fails only for the column
    "Region" itself. *)
Lemma top_regions_numeric (df : DataFrame V) (cells : list (option V))
  (name : string) (n : Z) :
  get_column df name = Some (NumCol cells) ->
  if String.eqb name "Region"
  then top_regions argsort df name n = Err (ValueError "Region")
  else is_ok (top_regions argsort df name n) = true.
Proof.
  intros Hc. destruct (String.eqb name "Region") eqn:E.
  - apply String.eqb_eq in E. subst name.
    rewrite (top_regions_grouped_eq argsort df "Region" n Hc Hc). reflexivity.
  - destruct (get_column df "Region") as [kc |] eqn:Hk.
    + rewrite (top_regions_grouped_eq argsort df name n Hk Hc).
      rewrite String.eqb_sym, E. reflexivity.
    + apply in_columns_none in Hk.
      rewrite (top_regions_fallback_eq argsort df name n Hk Hc). reflexivity.
Qed.

(** X6.  On a disk whose tables have unique labels, the only exception that
    a run of [main] can end in is the "cannot insert Region" of the ranked
    table, and it ends so exactly when the KPI that the sidebar hands over
    is the column "Region"; in particular the four metrics never raise. *)
Theorem main_raises_only_for_region (files : disk V) (s : Session) (e : error) :
  (forall path df, files path = Some df -> NoDup (columns df)) ->
  main argsort files s = Raised e <->
  e = ValueError "Region" /\
  exists df x, setup_sidebar files s = Done (df, "Region"%string, x).
Proof.
  intros Hdisk. unfold main.
  destruct (setup_sidebar files s) as [[[df kpi] x] | message] eqn:Hs.
  2:{ split; [discriminate | intros [_ [df [x E]]]; discriminate]. }
  destruct (setup_sidebar_done files s Hs) as [[path [_ Hf]] [Hnum _]].
  apply numeric_cols_in in Hnum. destruct Hnum as [cells Hin].
  pose proof (get_column_unique _ _ _ (Hdisk path df Hf) Hin) as Hk.
  unfold display_metrics. rewrite Hk.
  unfold display_main_content. cbn [top_df boxplot_fig].
  pose proof (@top_regions_numeric df cells kpi 10%Z Hk) as Ht.
  destruct (String.eqb kpi "Region") eqn:E.
  - apply String.eqb_eq in E. subst kpi. rewrite Ht. split.
    + intros R. injection R as <-. split; [reflexivity |]. eauto.
    + intros [-> _]. reflexivity.
  - destruct (top_regions argsort df kpi 10) as [t | e0]; [| discriminate].
    split; [discriminate |].
    intros [_ [df' [x' R]]]. injection R as _ R _. subst kpi.
    rewrite String.eqb_refl in E. discriminate.
Qed.
End MainFacts.

(** The example disk and session: the KPI is "GHI", grouped by "Region". *)
Lemma setup_sidebar_selection_witness :
  (exists cells, get_column example_table "GHI" = Some (NumCol cells)) /\
  ("Region"%string <> "None"%string /\
   exists cells, get_column example_table "Region" = Some (ObjCol cells)).
Proof.
  apply (@setup_sidebar_selection Q example_disk example_session
           example_table "GHI"%string (Some "Region"%string)).
  - reflexivity.
  - repeat constructor; cbn; intuition discriminate.
Defined.

Lemma sidebar_grouping_is_plotted_witness :
  box_x (plot_boxplot example_table "GHI" (Some "Region"%string)) = Some "Region"%string.
Proof.
  apply (@sidebar_grouping_is_plotted Q example_disk example_session
           example_table "GHI"%string (Some "Region"%string)).
  reflexivity.
Defined.

Lemma coded_disk_unique :
  forall path df, coded_disk path = Some df -> NoDup (columns df).
Proof.
  intros path df. unfold coded_disk.
  destruct (String.eqb path "data/benin_raw.csv"); [| discriminate].
  intros E. injection E as <-. repeat constructor; cbn; intuition discriminate.
Defined.

(** On the disk with the region codes, choosing the first KPI, "Region",
    ends the run in the exception. *)
Lemma main_raises_only_for_region_witness :
  main stable_argsort coded_disk {| csv_select := 0; kpi_select := 0; x_select := 0 |}
    = Raised (ValueError "Region") <->
  ValueError "Region" = ValueError "Region" /\
  exists df x,
    setup_sidebar coded_disk {| csv_select := 0; kpi_select := 0; x_select := 0 |}
      = Done (df, "Region"%string, x).
Proof.
  apply (@main_raises_only_for_region Q _ stable_argsort coded_disk
           {| csv_select := 0; kpi_select := 0; x_select := 0 |}
           (ValueError "Region") coded_disk_unique).
Defined.

(** * More on the ranked table *)

Lemma head_head {A : Type} (n m : Z) (l : list A) :
  (0 <= n <= m)%Z -> head n (head m l) = head n l.
Proof.
  intros Hnm. rewrite !head_nonneg by lia.
  rewrite firstn_firstn. f_equal. lia.
Qed.

Section RankingFacts.
Context {V : Type} {HN : Numeric V}.
Variable argsort : forall A : Type, (A -> A -> bool) -> list A -> list nat.

(** The outcome of [top_regions] in terms of the two columns it reads. *)
Lemma top_regions_cases (df : DataFrame V) (name : string) (n : Z) :
  top_regions argsort df name n =
  match get_column df "Region", get_column df name with
  | _, None => Err (KeyError name)
  | Some kc, Some (ObjCol _) => Err (TypeError name)
  | Some kc, Some (NumCol vs) =>
      if String.eqb "Region" name then Err (ValueError "Region")
      else Ok {| tf_columns := map (rename_column name) ["Region"%string; name];
                 tf_data := NumData (head n (sort_rows_desc argsort num_leb
                                               (mean_series kc vs))) |}
  | None, Some c =>
      Ok {| tf_columns := map (rename_column name) [default_index_name name; name];
            tf_data := head_data n (sorted_column argsort c) |}
  end.
Proof.
  destruct (get_column df "Region") as [kc |] eqn:Hk;
    destruct (get_column df name) as [[vs | ts] |] eqn:Hc.
  - apply top_regions_grouped_eq; assumption.
  - unfold top_regions, groupby_mean. rewrite (in_columns_some _ _ Hk), Hk, Hc. reflexivity.
  - unfold top_regions, groupby_mean. rewrite (in_columns_some _ _ Hk), Hk, Hc. reflexivity.
  - apply in_columns_none in Hk. apply top_regions_fallback_eq; assumption.
  - apply in_columns_none in Hk. apply top_regions_fallback_eq; assumption.
  - apply in_columns_none in Hk.
    unfold top_regions, select_column. rewrite Hk, Hc. reflexivity.
Qed.

(** X7.  Asking for fewer rows gives a prefix of what asking for more rows
    gives: for [0 <= n <= m], the table for [n] has the labels of the table
    for [m] and its first [n] rows. *)
Theorem top_regions_prefix (df : DataFrame V) (name : string) (n m : Z)
  (rm : TopFrame V) :
  (0 <= n <= m)%Z ->
  top_regions argsort df name m = Ok rm ->
  top_regions argsort df name n =
    Ok {| tf_columns := tf_columns rm; tf_data := head_data n (tf_data rm) |}.
Proof.
  intros Hnm. rewrite !top_regions_cases.
  destruct (get_column df "Region") as [kc |];
    destruct (get_column df name) as [[vs | ts] |]; try discriminate.
  - destruct (String.eqb "Region" name); [discriminate |].
    intros E. injection E as <-. cbn [tf_columns tf_data head_data].
    rewrite head_head by exact Hnm. reflexivity.
  - intros E. injection E as <-. cbn [tf_columns tf_data head_data sorted_column].
    rewrite head_head by exact Hnm. reflexivity.
  - intros E. injection E as <-. cbn [tf_columns tf_data head_data sorted_column].
    rewrite head_head by exact Hnm. reflexivity.
Qed.

(** X8.  [top_regions] reads the column "Region" and the ranking column and
    nothing else: two tables that agree on these two columns give the same
    outcome. *)
Theorem top_regions_reads_two_columns (df df' : DataFrame V) (name : string) (n : Z) :
  get_column df "Region" = get_column df' "Region" ->
  get_column df name = get_column df' name ->
  top_regions argsort df name n = top_regions argsort df' name n.
Proof.
  intros Hr Hc. rewrite !top_regions_cases, Hr, Hc. reflexivity.
Qed.

(** X9.  The labels of every table that [top_regions] returns: the first is
    "Region" in grouped mode and "Index" in fallback mode, except that
    ranking by a column named "index" leaves the first label "index"; the
    second is the name of the ranking column exactly when that name
    contains neither "Region" nor "index". *)
Theorem top_regions_labels (df : DataFrame V) (name : string) (n : Z)
  (res : TopFrame V) :
  top_regions argsort df name n = Ok res ->
  tf_columns res =
    [if in_columns "Region" df then "Region"%string
     else if String.eqb name "index" then "index"%string else "Index"%string;
     rename_column name name] /\
  (rename_column name name = name <->
   contains "Region" name = false /\ contains "index" name = false).
Proof.
  rewrite top_regions_cases. intros Ht.
  assert (Hkeep : name <> "Region"%string ->
            (rename_column name name = name <->
             contains "Region" name = false /\ contains "index" name = false)).
  { intros Hne. unfold rename_column.
    destruct (contains "Region" name) eqn:Hr; [split; [congruence | intros [? _]; discriminate] |].
    destruct (contains "index" name) eqn:Hi; [| split; auto].
    split; [| intros [_ ?]; discriminate].
    intros E. subst name. discriminate. }
  destruct (get_column df "Region") as [kc |] eqn:Hk;
    destruct (get_column df name) as [[vs | ts] |] eqn:Hc; try discriminate.
  - destruct (String.eqb "Region" name) eqn:E; [discriminate |].
    injection Ht as <-. rewrite (in_columns_some _ _ Hk). cbn [tf_columns map].
    split; [reflexivity |]. apply Hkeep. apply String.eqb_neq in E. congruence.
  - injection Ht as <-. apply in_columns_none in Hk. rewrite Hk. cbn [tf_columns map].
    split; [| apply Hkeep; intros ->; apply in_columns_none in Hk; congruence].
    unfold default_index_name. destruct (String.eqb name "index") eqn:E; [| reflexivity].
    apply String.eqb_eq in E. subst name. reflexivity.
  - injection Ht as <-. apply in_columns_none in Hk. rewrite Hk. cbn [tf_columns map].
    split; [| apply Hkeep; intros ->; apply in_columns_none in Hk; congruence].
    unfold default_index_name. destruct (String.eqb name "index") eqn:E; [| reflexivity].
    apply String.eqb_eq in E. subst name. reflexivity.
Qed.
End RankingFacts.

(** * The ranked table and the selected grouping *)

Section SelectionFacts.
Context {V : Type} {HN : Numeric V}.
Variable argsort : forall A : Type, (A -> A -> bool) -> list A -> list nat.

(** Two sessions with the same file and KPI selections load the same table
    and settle on the same KPI, or halt with the same message. *)
Lemma setup_sidebar_same_table (files : disk V) (s s' : Session) :
  csv_select s = csv_select s' ->
  kpi_select s = kpi_select s' ->
  match setup_sidebar files s, setup_sidebar files s' with
  | Done (df, kpi, _), Done (df', kpi', _) => df = df' /\ kpi = kpi'
  | Stopped _ a, Stopped _ b => a = b
  | _, _ => False
  end.
Proof.
  intros Hcsv Hkpi. unfold setup_sidebar. rewrite <- Hcsv, <- Hkpi.
  destruct (load_data files (selectbox "data/benin_raw.csv" csv_files (csv_select s)))
    as [df |]; [| reflexivity].
  destruct (numeric_cols df) as [| first others]; [reflexivity |].
  split; reflexivity.
Qed.

(** The grouping that the sidebar returns is a column of the table. *)
Lemma sidebar_grouping_in_columns (files : disk V) (s : Session) (df : DataFrame V)
  (kpi c : string) :
  setup_sidebar files s = Done (df, kpi, Some c) -> in_columns c df = true.
Proof.
  intros Hs. destruct (setup_sidebar_done files s Hs) as [_ [_ [_ Hc]]].
  apply categorical_cols_in in Hc. destruct Hc as [cells Hin].
  exact (in_columns_in _ _ _ Hin).
Qed.

(** C10.  Two runs of [main] that differ only in the selected grouping
    (none included) end alike: both halt with the same message, both raise
    the same exception, or both render the same metrics and the same ranked
    table, while each box plot follows its own selection.  The ranked table
    never takes the selection: on a table with a column "Region" it holds
    the first ten of the sorted means of the KPI over the groups of that
    column, and on a table without one the first ten of the sorted rows. *)
Theorem top_table_ignores_selection (files : disk V) (s s' : Session) :
  csv_select s = csv_select s' ->
  kpi_select s = kpi_select s' ->
  match main argsort files s, main argsort files s' with
  | Halted a, Halted b => a = b
  | Raised e, Raised e' => e = e'
  | Rendered m fig top, Rendered m' fig' top' =>
      m = m' /\ top = top' /\
      exists df kpi x x',
        setup_sidebar files s = Done (df, kpi, x) /\
        setup_sidebar files s' = Done (df, kpi, x') /\
        box_x fig = x /\ box_x fig' = x' /\
        top_regions argsort df kpi 10 = Ok top /\
        match get_column df "Region" with
        | Some kc =>
            exists vs,
              get_column df kpi = Some (NumCol vs) /\
              tf_data top =
                NumData (head 10 (sort_rows_desc argsort num_leb (mean_series kc vs)))
        | None =>
            exists c,
              get_column df kpi = Some c /\
              tf_data top = head_data 10 (sorted_column argsort c)
        end
  | _, _ => False
  end.
Proof.
  intros Hcsv Hkpi.
  pose proof (setup_sidebar_same_table files s s' Hcsv Hkpi) as Hsame.
  unfold main.
  destruct (setup_sidebar files s) as [[[df kpi] x] | a] eqn:Es;
    destruct (setup_sidebar files s') as [[[df' kpi'] x'] | b] eqn:Es';
    try contradiction; [| exact Hsame].
  destruct Hsame as [<- <-].
  destruct (display_metrics df kpi) as [m | e]; [| reflexivity].
  unfold display_main_content. cbn [top_df boxplot_fig].
  destruct (top_regions argsort df kpi 10) as [top | e] eqn:Et; [| reflexivity].
  split; [reflexivity |]. split; [reflexivity |].
  exists df, kpi, x, x'.
  split; [reflexivity |]. split; [reflexivity |].
  assert (Hbox : forall (s0 : Session) (x0 : option string),
             setup_sidebar files s0 = Done (df, kpi, x0) ->
             box_x (plot_boxplot df kpi x0) = x0).
  { intros s0 [c |] Hs0; [| reflexivity].
    unfold plot_boxplot. cbn [box_x].
    rewrite (sidebar_grouping_in_columns files s0 Hs0). cbn [negb].
    rewrite andb_false_r. reflexivity. }
  split; [exact (Hbox s x Es) |]. split; [exact (Hbox s' x' Es') |].
  split; [exact Et |].
  rewrite top_regions_cases in Et.
  destruct (get_column df "Region") as [kc |];
    destruct (get_column df kpi) as [[vs | ts] |]; try discriminate.
  - destruct (String.eqb "Region" kpi); [discriminate |].
    injection Et as <-. exists vs. split; reflexivity.
  - injection Et as <-. eexists. split; reflexivity.
  - injection Et as <-. eexists. split; reflexivity.
Qed.
End SelectionFacts.

(** The example table with no grouping and with the grouping "Region"
    selected. *)
Lemma top_table_ignores_selection_witness :
  match main stable_argsort example_disk plain_session,
        main stable_argsort example_disk example_session with
  | Halted a, Halted b => a = b
  | Raised e, Raised e' => e = e'
  | Rendered m fig top, Rendered m' fig' top' =>
      m = m' /\ top = top' /\
      exists df kpi x x',
        setup_sidebar example_disk plain_session = Done (df, kpi, x) /\
        setup_sidebar example_disk example_session = Done (df, kpi, x') /\
        box_x fig = x /\ box_x fig' = x' /\
        top_regions stable_argsort df kpi 10 = Ok top /\
        match get_column df "Region" with
        | Some kc =>
            exists vs,
              get_column df kpi = Some (NumCol vs) /\
              tf_data top =
                NumData (head 10 (sort_rows_desc stable_argsort num_leb
                                    (mean_series kc vs)))
        | None =>
            exists c,
              get_column df kpi = Some c /\
              tf_data top = head_data 10 (sorted_column stable_argsort c)
        end
  | _, _ => False
  end.
Proof.
  apply (@top_table_ignores_selection Q _ stable_argsort example_disk
           plain_session example_session); reflexivity.
Defined.

(** Three rows out of the five of [ungrouped_table] are the first three of
    four. *)
Lemma top_regions_prefix_witness :
  top_regions stable_argsort ungrouped_table "GHI" 3 =
  Ok {| tf_columns := ["Index"; "GHI"]%string;
        tf_data := head_data 3
                     (NumData [(LPos 1, Some 30%Q); (LPos 3, Some 30%Q);
                               (LPos 4, Some 20%Q); (LPos 0, Some 10%Q)]) |}.
Proof.
  apply (@top_regions_prefix Q _ stable_argsort ungrouped_table "GHI"%string 3 4
           {| tf_columns := ["Index"; "GHI"]%string;
              tf_data := NumData [(LPos 1, Some 30%Q); (LPos 3, Some 30%Q);
                                  (LPos 4, Some 20%Q); (LPos 0, Some 10%Q)] |}).
  - split; discriminate.
  - reflexivity.
Defined.

(** The example table and the same table with a further column. *)
Lemma top_regions_reads_two_columns_witness :
  top_regions stable_argsort example_table "GHI" 10 =
  top_regions stable_argsort
    (example_table ++ [("Comments"%string, ObjCol [None; None; None])]) "GHI" 10.
Proof.
  apply (@top_regions_reads_two_columns Q _ stable_argsort example_table
           (example_table ++ [("Comments"%string, ObjCol [None; None; None])])
           "GHI"%string 10).
  - reflexivity.
  - reflexivity.
Defined.

(** Ranking the example table by "GHI". *)
Lemma top_regions_labels_witness :
  ["Region"; "GHI"]%string =
    [if in_columns "Region" example_table then "Region"%string
     else if String.eqb "GHI" "index" then "index"%string else "Index"%string;
     rename_column "GHI" "GHI"] /\
  (rename_column "GHI" "GHI" = "GHI"%string <->
   contains "Region" "GHI" = false /\ contains "index" "GHI" = false).
Proof.
  apply (@top_regions_labels Q _ stable_argsort example_table "GHI"%string 10
           {| tf_columns := ["Region"; "GHI"]%string;
              tf_data := NumData [(LStr "A", Some 20%Q); (LStr "B", Some 20%Q)] |}).
  reflexivity.
Defined.

(** ** The order of the returned rows *)

Lemma firstn_subset {A : Type} (k : nat) (l : list A) (x : A) :
  In x (firstn k l) -> In x l.
Proof.
  intros Hin. rewrite <- (firstn_skipn k l). apply in_or_app. left. exact Hin.
Qed.

Lemma head_subset {A : Type} (n : Z) (l : list A) (x : A) :
  In x (head n l) -> In x l.
Proof.
  unfold head. destruct (0 <=? n)%Z; apply firstn_subset.
Qed.

Lemma head_cons {A : Type} (n : Z) (a : A) (l : list A) :
  (1 <= n)%Z -> head n (a :: l) = a :: head (n - 1) l.
Proof.
  intros Hn. rewrite !head_nonneg by lia.
  replace (Z.to_nat n) with (S (Z.to_nat (n - 1))) by lia. reflexivity.
Qed.

Lemma NoDup_firstn {A : Type} (k : nat) (l : list A) : NoDup l -> NoDup (firstn k l).
Proof.
  intros Hnd. rewrite <- (firstn_skipn k l) in Hnd.
  apply NoDup_app_remove_r in Hnd. exact Hnd.
Qed.

Lemma NoDup_head {A : Type} (n : Z) (l : list A) : NoDup l -> NoDup (head n l).
Proof.
  intros Hnd. unfold head. destruct (0 <=? n)%Z; apply NoDup_firstn; exact Hnd.
Qed.

Section OrderedPairsFacts.
Context {A : Type} (R : A -> A -> Prop).
Hypothesis R_sym : forall x y, R x y -> R y x.

Lemma ForallOrdPairs_perm (l l' : list A) :
  Permutation l l' -> ForallOrdPairs R l -> ForallOrdPairs R l'.
Proof.
  induction 1 as [| x l l' Hp IH | x y l | l l' l'' Hp1 IH1 Hp2 IH2]; intros Hf.
  - exact Hf.
  - inversion Hf as [| ? ? Hx Hl]; subst. constructor.
    + eapply Permutation_Forall; eassumption.
    + apply IH. exact Hl.
  - inversion Hf as [| ? ? Hy Hxl]; subst.
    inversion Hxl as [| ? ? Hx Hl]; subst.
    inversion Hy as [| ? ? Hyx Hyl]; subst.
    constructor; [constructor; [apply R_sym; exact Hyx | exact Hx] |].
    constructor; assumption.
  - apply IH2, IH1, Hf.
Qed.

Lemma ForallOrdPairs_firstn (k : nat) (l : list A) :
  ForallOrdPairs R l -> ForallOrdPairs R (firstn k l).
Proof.
  intros Hf. revert k. induction Hf as [| x l Hx Hl IH]; intros k.
  - rewrite firstn_nil. constructor.
  - destruct k as [| k]; [constructor |]. cbn [firstn]. constructor; [| apply IH].
    rewrite Forall_forall in *. intros y Hy. apply Hx.
    rewrite <- (firstn_skipn k l). apply in_or_app. left. exact Hy.
Qed.
End OrderedPairsFacts.

Section RowOrderFacts.
Context {K A : Type} (le : A -> A -> bool).
Variable argsort : forall A : Type, (A -> A -> bool) -> list A -> list nat.
Hypothesis argsort_ok : argsort_spec argsort.
Hypothesis le_total : forall x y, le x y = true \/ le y x = true.
Hypothesis le_trans : forall x y z, le x y = true -> le y z = true -> le x z = true.

(** The first of the sorted rows holds a greatest value. *)
Lemma sort_rows_desc_first (rows : list (K * option A)) (k : K) (v : A) :
  In (k, Some v) rows ->
  exists k0 v0 rest,
    sort_rows_desc argsort le rows = (k0, Some v0) :: rest /\
    In (k0, Some v0) rows /\
    (forall k' v', In (k', Some v') rows -> le v' v0 = true).
Proof.
  intros Hin.
  pose proof (sort_rows_desc_perm le argsort_ok rows) as Hp.
  pose proof (@sort_rows_desc_sorted K A le argsort argsort_ok rows le_total le_trans) as Hs.
  assert (Hall : forall r, In r rows -> In r (sort_rows_desc argsort le rows)).
  { intros r Hr. apply (Permutation_in _ (Permutation_sym Hp)). exact Hr. }
  destruct (sort_rows_desc argsort le rows) as [| [k0 o0] rest]; [destruct (Hall _ Hin) |].
  cbn [map snd] in Hs. inversion Hs as [| ? ? _ Hhd]; subst.
  rewrite Forall_forall in Hhd.
  assert (Htail : forall k' v', In (k', Some v') rest -> desc_le le o0 (Some v')).
  { intros k' v' Hr. apply Hhd. apply in_map_iff. exists (k', Some v'). auto. }
  destruct o0 as [v0 |].
  - exists k0, v0, rest. split; [reflexivity |]. split.
    + apply (Permutation_in _ Hp). left. reflexivity.
    + intros k' v' Hr. destruct (Hall _ Hr) as [E | Hr'].
      * injection E as _ <-. destruct (le_total v0 v0); assumption.
      * exact (Htail k' v' Hr').
  - exfalso. destruct (Hall _ Hin) as [E | Hr']; [discriminate |].
    exact (Htail k v Hr').
Qed.

Lemma non_missing_length (rows : list (K * option A)) :
  length (non_missing rows) = length (dropna (map snd rows)).
Proof.
  unfold non_missing, dropna.
  induction rows as [| [k [x |]] rows IH]; cbn; [reflexivity | f_equal; exact IH | exact IH].
Qed.

(** The rows without a value come after all rows with a value. *)
Lemma sort_rows_desc_valued (rows : list (K * option A)) (n : nat) (r : K * option A) :
  (n <= length (dropna (map snd rows)))%nat ->
  In r (firstn n (sort_rows_desc argsort le rows)) -> snd r <> None.
Proof.
  intros Hn. unfold sort_rows_desc. rewrite firstn_app.
  replace (n - _)%nat with 0%nat.
  - rewrite firstn_O, app_nil_r. intros Hin.
    apply firstn_subset in Hin.
    apply in_map_iff in Hin. destruct Hin as [r0 [<- _]]. discriminate.
  - assert (Hp : Permutation (argsort le (map snd (rev (non_missing rows))))
                             (seq 0 (length (rev (non_missing rows))))).
    { destruct (argsort_ok le (map snd (rev (non_missing rows)))) as [Hp _].
      rewrite length_map in Hp. exact Hp. }
    rewrite length_map, length_rev, (Permutation_length (take_perm _ Hp)).
    rewrite length_rev, non_missing_length. lia.
Qed.
End RowOrderFacts.

Lemma map_snd_combine {A B : Type} (l : list A) (l' : list B) :
  length l = length l' -> map snd (combine l l') = l'.
Proof.
  revert l'. induction l as [| x l IH]; intros [| y l'] Hlen; try discriminate.
  - reflexivity.
  - cbn. f_equal. apply IH. cbn in Hlen. lia.
Qed.

Lemma NoDup_map_injective {A B : Type} (f : A -> B) (l : list A) :
  (forall x y, f x = f y -> x = y) -> NoDup l -> NoDup (map f l).
Proof.
  intros Hinj. induction 1 as [| x l Hx Hnd IH]; cbn; constructor; [| exact IH].
  intros Hin. apply in_map_iff in Hin. destruct Hin as [y [E Hy]].
  apply Hinj in E. subst y. exact (Hx Hy).
Qed.

Section PositionFacts.
Context {V : Type} {HN : Numeric V} {A : Type}.

Lemma with_positions_fst (cells : list A) :
  map fst (with_positions (V := V) cells) = map LPos (seq 0 (length cells)).
Proof.
  unfold with_positions. apply map_fst_combine.
  rewrite length_map, length_seq. reflexivity.
Qed.

Lemma with_positions_snd (cells : list A) :
  map snd (with_positions (V := V) cells) = cells.
Proof.
  unfold with_positions. apply map_snd_combine.
  rewrite length_map, length_seq. reflexivity.
Qed.

Lemma with_positions_NoDup (cells : list A) :
  NoDup (map fst (with_positions (V := V) cells)).
Proof.
  rewrite with_positions_fst. apply NoDup_map_injective.
  - intros x y E. injection E as E. exact E.
  - apply seq_NoDup.
Qed.

Lemma with_positions_label (cells : list A) (l : label V) (x : A) :
  In (l, x) (with_positions cells) ->
  exists i, l = LPos i /\ nth_error cells i = Some x.
Proof.
  intros Hin.
  assert (Hl : In l (map LPos (seq 0 (length cells)))).
  { rewrite <- with_positions_fst. apply in_map_iff. exists (l, x). auto. }
  apply in_map_iff in Hl. destruct Hl as [i [<- _]].
  exists i. split; [reflexivity |]. apply (with_positions_nth (V := V)). exact Hin.
Qed.

Lemma with_positions_shift_in (k : nat) (cells : list A) (i : nat) (x : A) :
  nth_error cells i = Some x ->
  In (LPos (V := V) (k + i), x) (combine (map LPos (seq k (length cells))) cells).
Proof.
  revert k i. induction cells as [| c cells IH]; intros k [| i] E; try discriminate.
  - injection E as ->. cbn. left. rewrite Nat.add_0_r. reflexivity.
  - cbn [length seq map combine]. right.
    replace (k + S i)%nat with (S k + i)%nat by lia. apply IH. exact E.
Qed.

Lemma with_positions_in (cells : list A) (i : nat) (x : A) :
  nth_error cells i = Some x -> In (LPos (V := V) i, x) (with_positions cells).
Proof. intros E. exact (with_positions_shift_in 0 cells i E). Qed.
End PositionFacts.

Section RankingOrder.
Context {V : Type} {HN : Numeric V} {HO : NumericOrder V}.
Variable argsort : forall A : Type, (A -> A -> bool) -> list A -> list nat.
Hypothesis argsort_ok : argsort_spec argsort.

(** X10.  In fallback mode with [n >= 1], when the ranking column holds a
    value at all, the first returned row is a row of the table whose value
    is greatest among all values of the column. *)
Theorem top_regions_fallback_first (df : DataFrame V) (cells : list (option V))
  (name : string) (n : Z) (v : V) :
  in_columns "Region" df = false ->
  get_column df name = Some (NumCol cells) ->
  (1 <= n)%Z ->
  In (Some v) cells ->
  exists names i top rest,
    top_regions argsort df name n =
      Ok {| tf_columns := names; tf_data := NumData ((LPos i, Some top) :: rest) |} /\
    nth_error cells i = Some (Some top) /\
    (forall w, In (Some w) cells -> num_leb w top = true).
Proof.
  intros Hr Hc Hn Hv. rewrite (top_regions_fallback_eq argsort df name n Hr Hc).
  cbn [sorted_column head_data].
  apply In_nth_error in Hv. destruct Hv as [j Hj].
  destruct (@sort_rows_desc_first (label V) V num_leb argsort argsort_ok
              num_leb_total num_leb_trans (with_positions cells) (LPos j) v
              (with_positions_in cells j Hj))
    as [k0 [v0 [rest [Es [Hin Hmax]]]]].
  destruct (with_positions_label _ _ _ Hin) as [i [-> Hi]].
  rewrite Es, head_cons by exact Hn.
  eexists. exists i, v0. eexists. split; [reflexivity |]. split; [exact Hi |].
  intros w Hw. apply In_nth_error in Hw. destruct Hw as [j' Hj'].
  exact (Hmax _ _ (with_positions_in cells j' Hj')).
Qed.

(** X12.  In fallback mode, rows without a value never displace rows with a
    value: when [n] is at most the number of values of the ranking column,
    every returned row has a value. *)
Theorem top_regions_values_first (df : DataFrame V) (cells : list (option V))
  (name : string) (n : Z) :
  in_columns "Region" df = false ->
  get_column df name = Some (NumCol cells) ->
  (0 <= n <= Z.of_nat (length (dropna cells)))%Z ->
  exists names rows,
    top_regions argsort df name n =
      Ok {| tf_columns := names; tf_data := NumData rows |} /\
    (forall r, In r rows -> snd r <> None).
Proof.
  intros Hr Hc Hn. rewrite (top_regions_fallback_eq argsort df name n Hr Hc).
  cbn [sorted_column head_data]. eexists. eexists. split; [reflexivity |].
  intros r Hin. rewrite head_nonneg in Hin by lia.
  apply (@sort_rows_desc_valued (label V) V num_leb argsort argsort_ok
           (with_positions cells) (Z.to_nat n) r); [| exact Hin].
  rewrite with_positions_snd. lia.
Qed.

(** X13.  In fallback mode no row is returned twice: the returned positions
    are pairwise different, and each is a position of the table, paired
    with the value at that position. *)
Theorem top_regions_fallback_positions (df : DataFrame V) (cells : list (option V))
  (name : string) (n : Z) :
  in_columns "Region" df = false ->
  get_column df name = Some (NumCol cells) ->
  exists names rows,
    top_regions argsort df name n =
      Ok {| tf_columns := names; tf_data := NumData rows |} /\
    NoDup (map fst rows) /\
    (forall r, In r rows ->
               exists i, fst r = LPos i /\ nth_error cells i = Some (snd r)).
Proof.
  intros Hr Hc. rewrite (top_regions_fallback_eq argsort df name n Hr Hc).
  cbn [sorted_column head_data]. eexists. eexists. split; [reflexivity |].
  pose proof (sort_rows_desc_perm num_leb argsort_ok (with_positions (V := V) cells)) as Hp.
  split.
  - unfold head. destruct (0 <=? n)%Z; rewrite <- firstn_map; apply NoDup_firstn;
      apply (Permutation_NoDup (Permutation_map fst (Permutation_sym Hp)));
      apply with_positions_NoDup.
  - intros [l x] Hin. apply head_subset in Hin.
    apply (Permutation_in _ Hp) in Hin. apply with_positions_label. exact Hin.
Qed.

(** X14.  In grouped mode no group is returned twice: the returned labels
    lie in pairwise different groups, and each is a value that the column
    "Region" holds in some row. *)
Theorem top_regions_grouped_labels (df : DataFrame V) (kc : column V)
  (vs : list (option V)) (name : string) (n : Z) :
  get_column df "Region" = Some kc ->
  get_column df name = Some (NumCol vs) ->
  name <> "Region"%string ->
  exists names rows,
    top_regions argsort df name n =
      Ok {| tf_columns := names; tf_data := NumData rows |} /\
    separated (map fst rows) /\
    (forall r, In r rows ->
               In (Some (fst r)) (map fst (combine (column_labels kc) vs))).
Proof.
  intros Hk Hc Hne. rewrite (top_regions_grouped_eq argsort df name n Hk Hc).
  assert (E : String.eqb "Region" name = false).
  { apply String.eqb_neq. congruence. }
  rewrite E. eexists. eexists. split; [reflexivity |].
  assert (Hp : Permutation
                 (map fst (sort_rows_desc argsort num_leb (mean_series kc vs)))
                 (distinct_groups (map fst (combine (column_labels kc) vs)))).
  { eapply Permutation_trans;
      [apply Permutation_map, sort_rows_desc_perm; exact argsort_ok
      | apply mean_series_keys]. }
  split.
  - unfold separated, head. destruct (0 <=? n)%Z; rewrite <- firstn_map;
      apply ForallOrdPairs_firstn;
      apply (ForallOrdPairs_perm (R := fun a b : label V => label_eqb a b = false)
               (fun x y Hxy => eq_trans (label_eqb_sym y x) Hxy)
               (Permutation_sym Hp));
      apply distinct_groups_separated.
  - intros r Hin. apply head_subset in Hin.
    apply distinct_groups_sound. apply (Permutation_in _ Hp).
    apply in_map_iff. exists r. split; [reflexivity | exact Hin].
Qed.
End RankingOrder.

(** The three greatest of [ungrouped_table]: the first holds the value 30. *)
Lemma top_regions_fallback_first_witness :
  exists names i top rest,
    top_regions stable_argsort ungrouped_table "GHI" 3 =
      Ok {| tf_columns := names; tf_data := NumData ((LPos i, Some top) :: rest) |} /\
    nth_error [Some 10%Q; Some 30%Q; None; Some 30%Q; Some 20%Q] i = Some (Some top) /\
    (forall w, In (Some w) [Some 10%Q; Some 30%Q; None; Some 30%Q; Some 20%Q] ->
               num_leb w top = true).
Proof.
  apply (@top_regions_fallback_first Q _ _ stable_argsort stable_argsort_spec
           ungrouped_table [Some 10%Q; Some 30%Q; None; Some 30%Q; Some 20%Q]
           "GHI"%string 3 10%Q).
  - reflexivity.
  - reflexivity.
  - discriminate.
  - left. reflexivity.
Defined.

(** Four values and [n = 3]: the row without a value is not returned. *)
Lemma top_regions_values_first_witness :
  exists names rows,
    top_regions stable_argsort ungrouped_table "GHI" 3 =
      Ok {| tf_columns := names; tf_data := NumData rows |} /\
    (forall r, In r rows -> snd r <> None).
Proof.
  apply (@top_regions_values_first Q _ stable_argsort stable_argsort_spec
           ungrouped_table [Some 10%Q; Some 30%Q; None; Some 30%Q; Some 20%Q]
           "GHI"%string 3).
  - reflexivity.
  - reflexivity.
  - split; vm_compute; discriminate.
Defined.

(** All five rows of [ungrouped_table], each once. *)
Lemma top_regions_fallback_positions_witness :
  exists names rows,
    top_regions stable_argsort ungrouped_table "GHI" 10 =
      Ok {| tf_columns := names; tf_data := NumData rows |} /\
    NoDup (map fst rows) /\
    (forall r, In r rows ->
               exists i, fst r = LPos i /\
                         nth_error [Some 10%Q; Some 30%Q; None; Some 30%Q; Some 20%Q] i
                           = Some (snd r)).
Proof.
  apply (@top_regions_fallback_positions Q _ stable_argsort stable_argsort_spec
           ungrouped_table [Some 10%Q; Some 30%Q; None; Some 30%Q; Some 20%Q]
           "GHI"%string 10).
  - reflexivity.
  - reflexivity.
Defined.

(** The two groups of the example table. *)
Lemma top_regions_grouped_labels_witness :
  exists names rows,
    top_regions stable_argsort example_table "GHI" 10 =
      Ok {| tf_columns := names; tf_data := NumData rows |} /\
    separated (map fst rows) /\
    (forall r, In r rows ->
               In (Some (fst r))
                  (map fst (combine (column_labels (ObjCol [Some "A"; Some "A"; Some "B"]%string))
                                    [Some 10%Q; Some 30%Q; Some 20%Q]))).
Proof.
  apply (@top_regions_grouped_labels Q _ _ stable_argsort stable_argsort_spec
           example_table (ObjCol [Some "A"; Some "A"; Some "B"]%string)
           [Some 10%Q; Some 30%Q; Some 20%Q] "GHI"%string 10).
  - reflexivity.
  - reflexivity.
  - discriminate.
Defined.


(** * Means and extrema of exact rationals *)

Section RationalFacts.
Open Scope Q_scope.
Variable argsort : forall A : Type, (A -> A -> bool) -> list A -> list nat.
Hypothesis argsort_ok : argsort_spec argsort.

Lemma mean_some (l : list Q) (m : Q) :
  mean l = Some m ->
  exists lo hi, In lo l /\ In hi l /\ lo <= m <= hi.
Proof.
  intros Hm.
  destruct l as [| x t]; [discriminate |].
  destruct (maximum (x :: t)) as [hi |] eqn:Ehi; [| discriminate].
  destruct (minimum (x :: t)) as [lo |] eqn:Elo; [| discriminate].
  destruct (maximum_spec _ Ehi) as [Hhi1 Hhi2].
  destruct (minimum_spec _ Elo) as [Hlo1 Hlo2].
  exists lo, hi. split; [exact Hlo1 |]. split; [exact Hhi1 |].
  apply (mean_bounds (x :: t)); [| exact Hm].
  intros y Hy. split; [apply Hlo2 | apply Hhi2]; exact Hy.
Qed.

(** X11.  In exact rational arithmetic, in grouped mode with [n >= 1], when
    some group has a mean at all, the first returned pair is a group whose
    mean is greatest among the means of all groups. *)
Theorem top_regions_grouped_first (df : DataFrame Q) (kc : column Q)
  (vs : list (option Q)) (name : string) (n : Z) (g : label Q) (m : Q) :
  get_column df "Region" = Some kc ->
  get_column df name = Some (NumCol vs) ->
  name <> "Region"%string ->
  (1 <= n)%Z ->
  In (g, Some m) (group_means (combine (column_labels kc) vs)) ->
  exists names g0 m0 rest,
    top_regions argsort df name n =
      Ok {| tf_columns := names; tf_data := NumData ((g0, Some m0) :: rest) |} /\
    In (g0, Some m0) (group_means (combine (column_labels kc) vs)) /\
    (forall g' m', In (g', Some m') (group_means (combine (column_labels kc) vs)) ->
                   m' <= m0).
Proof.
  intros Hk Hc Hne Hn Hg. rewrite (top_regions_grouped_eq argsort df name n Hk Hc).
  assert (E : String.eqb "Region" name = false).
  { apply String.eqb_neq. congruence. }
  rewrite E.
  pose proof (mean_series_perm kc vs) as Hp.
  destruct (@sort_rows_desc_first (label Q) Q num_leb argsort argsort_ok
              num_leb_total num_leb_trans (mean_series kc vs) g m
              (Permutation_in _ (Permutation_sym Hp) Hg))
    as [g0 [m0 [rest [Es [Hin Hmax]]]]].
  rewrite Es, head_cons by exact Hn.
  eexists. exists g0, m0. eexists. split; [reflexivity |]. split.
  - apply (Permutation_in _ Hp). exact Hin.
  - intros g' m' Hg'. apply Qle_bool_iff. apply (Hmax g').
    apply (Permutation_in _ (Permutation_sym Hp)). exact Hg'.
Qed.

(** X15.  In grouped mode every returned mean lies between two values of
    its group, and a group is returned without a mean only if none of its
    rows has a value. *)
Theorem top_regions_group_mean_bounds (df : DataFrame Q) (kc : column Q)
  (vs : list (option Q)) (name : string) (n : Z) :
  get_column df "Region" = Some kc ->
  get_column df name = Some (NumCol vs) ->
  name <> "Region"%string ->
  exists names rows,
    top_regions argsort df name n =
      Ok {| tf_columns := names; tf_data := NumData rows |} /\
    (forall g m, In (g, Some m) rows ->
       exists lo hi,
         In lo (group_values g (combine (column_labels kc) vs)) /\
         In hi (group_values g (combine (column_labels kc) vs)) /\
         lo <= m <= hi) /\
    (forall g, In (g, None) rows ->
       group_values g (combine (column_labels kc) vs) = []).
Proof.
  intros Hk Hc Hne. rewrite (top_regions_grouped_eq argsort df name n Hk Hc).
  assert (E : String.eqb "Region" name = false).
  { apply String.eqb_neq. congruence. }
  rewrite E. eexists. eexists. split; [reflexivity |].
  assert (Hmean : forall g om,
            In (g, om) (head n (sort_rows_desc argsort num_leb (mean_series kc vs))) ->
            om = mean (group_values g (combine (column_labels kc) vs))).
  { intros g om Hin. apply head_subset in Hin.
    apply (Permutation_in _ (sort_rows_desc_perm num_leb argsort_ok _)) in Hin.
    apply (Permutation_in _ (mean_series_perm kc vs)) in Hin.
    unfold group_means in Hin. apply in_map_iff in Hin.
    destruct Hin as [g' [Eg _]]. injection Eg as -> <-. reflexivity. }
  split.
  - intros g m Hin. apply mean_some. symmetry. apply Hmean. exact Hin.
  - intros g Hin. apply Hmean in Hin.
    destruct (group_values g (combine (column_labels kc) vs)); [reflexivity | discriminate].
Qed.

(** X16.  On a table without the column "Region", the maximum that
    [display_metrics] reports for a KPI column that holds a value is the
    value of the first row of the ranked table that [display_main_content]
    shows for it. *)
Theorem metrics_max_is_top_row (df : DataFrame Q) (cells : list (option Q))
  (kpi_column : string) (x_column : option string) (v : Q) :
  in_columns "Region" df = false ->
  get_column df kpi_column = Some (NumCol cells) ->
  In (Some v) cells ->
  exists m mx names i top rest,
    display_metrics df kpi_column = Ok m /\
    max_value m = Some mx /\
    top_df (display_main_content argsort df kpi_column x_column) =
      Ok {| tf_columns := names; tf_data := NumData ((LPos i, Some top) :: rest) |} /\
    mx == top.
Proof.
  intros Hr Hc Hv. unfold display_main_content, display_metrics.
  cbn [top_df]. rewrite Hc.
  rewrite (top_regions_fallback_eq argsort df kpi_column 10 Hr Hc).
  cbn [sorted_column head_data].
  assert (Hdrop : forall w, In (Some w) cells <-> In w (dropna cells)).
  { intros w. unfold dropna. rewrite in_flat_map. split.
    - intros Hw. exists (Some w). split; [exact Hw | left; reflexivity].
    - intros [[y |] [Hy Hw]]; [| contradiction].
      destruct Hw as [<- | []]. exact Hy. }
  destruct (maximum (dropna cells)) as [mx |] eqn:Emx.
  2:{ apply Hdrop in Hv. destruct (dropna cells); [contradiction | discriminate]. }
  destruct (maximum_spec _ Emx) as [Hmx1 Hmx2].
  apply In_nth_error in Hv. destruct Hv as [j Hj].
  destruct (@sort_rows_desc_first (label Q) Q num_leb argsort argsort_ok
              (num_leb_total (V := Q)) (num_leb_trans (V := Q))
              (with_positions cells) (LPos j) v (with_positions_in cells j Hj))
    as [k0 [v0 [rest [Es [Hin Hmax]]]]].
  destruct (with_positions_label _ _ _ Hin) as [i [-> Hi]].
  rewrite Es, head_cons by discriminate.
  eexists. exists mx. eexists. exists i, v0. eexists.
  split; [reflexivity |]. split; [reflexivity |]. split; [reflexivity |].
  apply Qle_antisym.
  - apply Qle_bool_iff. apply Hdrop in Hmx1.
    apply In_nth_error in Hmx1. destruct Hmx1 as [j' Hj'].
    exact (Hmax _ _ (with_positions_in cells j' Hj')).
  - apply Hmx2. apply Hdrop. eapply nth_error_In. exact Hi.
Qed.
End RationalFacts.

(** The example table: both groups have the mean 20. *)
Lemma top_regions_grouped_first_witness :
  exists names g0 m0 rest,
    top_regions stable_argsort example_table "GHI" 10 =
      Ok {| tf_columns := names; tf_data := NumData ((g0, Some m0) :: rest) |} /\
    In (g0, Some m0)
       (group_means (combine (column_labels (ObjCol [Some "A"; Some "A"; Some "B"]%string))
                             [Some 10%Q; Some 30%Q; Some 20%Q])) /\
    (forall g' m',
        In (g', Some m')
           (group_means (combine (column_labels (ObjCol [Some "A"; Some "A"; Some "B"]%string))
                                 [Some 10%Q; Some 30%Q; Some 20%Q])) ->
        (m' <= m0)%Q).
Proof.
  apply (@top_regions_grouped_first stable_argsort stable_argsort_spec
           example_table (ObjCol [Some "A"; Some "A"; Some "B"]%string)
           [Some 10%Q; Some 30%Q; Some 20%Q] "GHI"%string 10 (LStr "A") 20%Q).
  - reflexivity.
  - reflexivity.
  - discriminate.
  - discriminate.
  - left. reflexivity.
Defined.

(** The groups of the example table: each mean lies among the values. *)
Lemma top_regions_group_mean_bounds_witness :
  exists names rows,
    top_regions stable_argsort example_table "GHI" 10 =
      Ok {| tf_columns := names; tf_data := NumData rows |} /\
    (forall g m, In (g, Some m) rows ->
       exists lo hi,
         In lo (group_values g
                  (combine (column_labels (ObjCol [Some "A"; Some "A"; Some "B"]%string))
                           [Some 10%Q; Some 30%Q; Some 20%Q])) /\
         In hi (group_values g
                  (combine (column_labels (ObjCol [Some "A"; Some "A"; Some "B"]%string))
                           [Some 10%Q; Some 30%Q; Some 20%Q])) /\
         (lo <= m <= hi)%Q) /\
    (forall g, In (g, None) rows ->
       group_values g
         (combine (column_labels (ObjCol [Some "A"; Some "A"; Some "B"]%string))
                  [Some 10%Q; Some 30%Q; Some 20%Q]) = []).
Proof.
  apply (@top_regions_group_mean_bounds stable_argsort stable_argsort_spec
           example_table (ObjCol [Some "A"; Some "A"; Some "B"]%string)
           [Some 10%Q; Some 30%Q; Some 20%Q] "GHI"%string 10).
  - reflexivity.
  - reflexivity.
  - discriminate.
Defined.

(** [ungrouped_table]: the maximum and the value of the first row are 30. *)
Lemma metrics_max_is_top_row_witness :
  exists m mx names i top rest,
    display_metrics ungrouped_table "GHI" = Ok m /\
    max_value m = Some mx /\
    top_df (display_main_content stable_argsort ungrouped_table "GHI" None) =
      Ok {| tf_columns := names; tf_data := NumData ((LPos i, Some top) :: rest) |} /\
    (mx == top)%Q.
Proof.
  apply (@metrics_max_is_top_row stable_argsort stable_argsort_spec
           ungrouped_table [Some 10%Q; Some 30%Q; None; Some 30%Q; Some 20%Q]
           "GHI"%string None 10%Q).
  - reflexivity.
  - reflexivity.
  - left. reflexivity.
Defined.

(** * The metrics and the order of the rows *)

Lemma filter_length_perm {A : Type} (f : A -> bool) (l l' : list A) :
  Permutation l l' -> length (filter f l) = length (filter f l').
Proof.
  induction 1 as [| x l l' Hp IH | x y l | l l' l'' Hp1 IH1 Hp2 IH2]; cbn.
  - reflexivity.
  - destruct (f x); cbn; rewrite IH; reflexivity.
  - destruct (f x), (f y); reflexivity.
  - rewrite IH1. exact IH2.
Qed.

Lemma filter_length_mono {A : Type} (f g : A -> bool) (l : list A) :
  (forall y, f y = true -> g y = true) ->
  (length (filter f l) <= length (filter g l))%nat.
Proof.
  intros Hfg. induction l as [| x l IH]; cbn; [lia |].
  destruct (f x) eqn:Ef.
  - rewrite (Hfg x Ef). cbn. lia.
  - destruct (g x); cbn; lia.
Qed.

Section MetricsOrder.
Open Scope Q_scope.

Lemma maximum_perm (l l' : list Q) :
  Permutation l l' -> same_value (maximum l) (maximum l').
Proof.
  intros Hp. pose proof (Permutation_length Hp) as Hlen.
  destruct (maximum l) as [a |] eqn:Ea, (maximum l') as [b |] eqn:Eb; cbn [same_value].
  - destruct (maximum_spec _ Ea) as [Ha1 Ha2].
    destruct (maximum_spec _ Eb) as [Hb1 Hb2].
    apply Qle_antisym.
    + apply Hb2. apply (Permutation_in _ Hp). exact Ha1.
    + apply Ha2. apply (Permutation_in _ (Permutation_sym Hp)). exact Hb1.
  - destruct l, l'; discriminate.
  - destruct l, l'; discriminate.
  - exact I.
Qed.

Lemma minimum_perm (l l' : list Q) :
  Permutation l l' -> same_value (minimum l) (minimum l').
Proof.
  intros Hp. pose proof (Permutation_length Hp) as Hlen.
  destruct (minimum l) as [a |] eqn:Ea, (minimum l') as [b |] eqn:Eb; cbn [same_value].
  - destruct (minimum_spec _ Ea) as [Ha1 Ha2].
    destruct (minimum_spec _ Eb) as [Hb1 Hb2].
    apply Qle_antisym.
    + apply Ha2. apply (Permutation_in _ (Permutation_sym Hp)). exact Hb1.
    + apply Hb2. apply (Permutation_in _ Hp). exact Ha1.
  - destruct l, l'; discriminate.
  - destruct l, l'; discriminate.
  - exact I.
Qed.

(** In sorted data, fewer than [k + 1] values lie below the value at
    position [k], and more than [k] values lie at or below it. *)
Lemma rank_bounds (s : list Q) (k : nat) (a : Q) :
  StronglySorted Qle s ->
  nth_error s k = Some a ->
  (length (filter (fun y => negb (Qle_bool a y)) s) <= k
   < length (filter (fun y => Qle_bool y a) s))%nat.
Proof.
  intros Hs. revert k. induction Hs as [| x t Hs IH Hall]; intros k Hk.
  - destruct k; discriminate.
  - rewrite Forall_forall in Hall. destruct k as [| k]; cbn [nth_error] in Hk.
    + injection Hk as ->. cbn [filter].
      assert (Haa : Qle_bool a a = true) by (apply Qle_bool_iff, Qle_refl).
      rewrite Haa. cbn [negb length].
      rewrite filter_none; [cbn; lia |].
      intros y Hy. apply negb_false_iff, Qle_bool_iff, Hall, Hy.
    + specialize (IH k Hk).
      assert (Hxa : Qle_bool x a = true).
      { apply Qle_bool_iff, Hall. eapply nth_error_In. exact Hk. }
      cbn [filter]. rewrite Hxa. cbn [length].
      destruct (negb (Qle_bool a x)); cbn [length]; lia.
Qed.

Lemma rank_unique (s s' : list Q) (k : nat) (a b : Q) :
  StronglySorted Qle s -> StronglySorted Qle s' -> Permutation s s' ->
  nth_error s k = Some a -> nth_error s' k = Some b -> a == b.
Proof.
  intros Hs Hs' Hp Ha Hb.
  pose proof (@rank_bounds s k a Hs Ha) as [Ha1 Ha2].
  pose proof (@rank_bounds s' k b Hs' Hb) as [Hb1 Hb2].
  destruct (Q_dec a b) as [[Hlt | Hgt] | Heq]; [| | exact Heq]; exfalso.
  - rewrite (@filter_length_perm Q (fun y => Qle_bool y a) s s' Hp) in Ha2.
    pose proof (@filter_length_mono Q (fun y => Qle_bool y a)
                  (fun y => negb (Qle_bool b y)) s') as Hm.
    assert (Hfg : forall y, Qle_bool y a = true -> negb (Qle_bool b y) = true).
    { intros y Hy. apply Qle_bool_iff in Hy. apply negb_true_iff.
      destruct (Qle_bool b y) eqn:E; [| reflexivity].
      apply Qle_bool_iff in E. lra. }
    specialize (Hm Hfg). lia.
  - rewrite <- (@filter_length_perm Q (fun y => Qle_bool y b) s s' Hp) in Hb2.
    pose proof (@filter_length_mono Q (fun y => Qle_bool y b)
                  (fun y => negb (Qle_bool a y)) s) as Hm.
    assert (Hfg : forall y, Qle_bool y b = true -> negb (Qle_bool a y) = true).
    { intros y Hy. apply Qle_bool_iff in Hy. apply negb_true_iff.
      destruct (Qle_bool a y) eqn:E; [| reflexivity].
      apply Qle_bool_iff in E. lra. }
    specialize (Hm Hfg). lia.
Qed.

Lemma is_median_perm (l l' : list Q) (md md' : Q) :
  Permutation l l' -> is_median l md -> is_median l' md' -> md == md'.
Proof.
  intros Hp [s [Hps [Hs Hm]]] [s' [Hps' [Hs' Hm']]].
  assert (Hss : Permutation s s').
  { eapply Permutation_trans; [exact Hps |].
    eapply Permutation_trans; [exact Hp | apply Permutation_sym; exact Hps']. }
  rewrite <- (Permutation_length Hp) in Hm'.
  destruct (Nat.even (length l)).
  - destruct Hm as [a [b [Ha [Hb E]]]]. destruct Hm' as [a' [b' [Ha' [Hb' E']]]].
    rewrite E, E', (@rank_unique s s' _ a a' Hs Hs' Hss Ha Ha'), (@rank_unique s s' _ b b' Hs Hs' Hss Hb Hb').
    reflexivity.
  - exact (@rank_unique s s' _ md md' Hs Hs' Hss Hm Hm').
Qed.

Lemma median_perm (l l' : list Q) :
  Permutation l l' -> same_value (median l) (median l').
Proof.
  intros Hp. pose proof (Permutation_length Hp) as Hlen.
  destruct l as [| x t], l' as [| x' t']; try discriminate; [exact I |].
  destruct (median_spec (l := x :: t) eq_refl) as [md [E Hm]].
  destruct (median_spec (l := x' :: t') eq_refl) as [md' [E' Hm']].
  rewrite E, E'. exact (@is_median_perm _ _ md md' Hp Hm Hm').
Qed.

(** X17.  Median, maximum and minimum do not depend on the order of the
    rows: for two tables whose KPI columns hold the same cells in any
    order, [display_metrics] reports the same median, maximum and minimum
    (equal numbers, or missing on both sides).  These three are fixed by
    comparisons of the values; the average is a sum in row order and is
    left out. *)
Theorem display_metrics_row_order (df df' : DataFrame Q) (cells cells' : list (option Q))
  (kpi_column : string) :
  get_column df kpi_column = Some (NumCol cells) ->
  get_column df' kpi_column = Some (NumCol cells') ->
  Permutation cells cells' ->
  exists m m',
    display_metrics df kpi_column = Ok m /\
    display_metrics df' kpi_column = Ok m' /\
    same_value (med m) (med m') /\
    same_value (max_value m) (max_value m') /\
    same_value (min_value m) (min_value m').
Proof.
  intros Hc Hc' Hp. unfold display_metrics. rewrite Hc, Hc'.
  assert (Hd : Permutation (dropna cells) (dropna cells')).
  { unfold dropna. apply Permutation_flat_map. exact Hp. }
  eexists. eexists. split; [reflexivity |]. split; [reflexivity |].
  cbn [med max_value min_value].
  split; [apply median_perm; exact Hd |].
  split; [apply maximum_perm; exact Hd | apply minimum_perm; exact Hd].
Qed.
End MetricsOrder.

(** [ungrouped_table] and its rows in reverse order. *)
Lemma display_metrics_row_order_witness :
  exists m m',
    display_metrics ungrouped_table "GHI" = Ok m /\
    display_metrics
      [("GHI"%string, NumCol [Some 20%Q; Some 30%Q; None; Some 30%Q; Some 10%Q])] "GHI"
      = Ok m' /\
    same_value (med m) (med m') /\
    same_value (max_value m) (max_value m') /\
    same_value (min_value m) (min_value m').
Proof.
  apply (@display_metrics_row_order ungrouped_table
           [("GHI"%string, NumCol [Some 20%Q; Some 30%Q; None; Some 30%Q; Some 10%Q])]
           [Some 10%Q; Some 30%Q; None; Some 30%Q; Some 20%Q]
           [Some 20%Q; Some 30%Q; None; Some 30%Q; Some 10%Q] "GHI"%string).
  - reflexivity.
  - reflexivity.
  - apply (Permutation_rev [Some 10%Q; Some 30%Q; None; Some 30%Q; Some 20%Q]).
Defined.

(** The average is left out of the statement above for a reason: in
    binary64 it depends on the order of the rows.  The values 1, 1e16 and
    -1e16 average to 0 in this order and to a third when the 1 comes
    last. *)
Lemma display_metrics_binary64_row_order :
  exists m m',
    display_metrics cancelling_rows "GHI" = Ok m /\
    display_metrics cancelling_rows_reordered "GHI" = Ok m' /\
    average m = Some 0%float /\
    average m' = Some 0x1.5555555555555p-2%float /\
    med m = med m' /\ max_value m = max_value m' /\ min_value m = min_value m'.
Proof.
  eexists. eexists. split; [reflexivity |]. split; [reflexivity |].
  split; [vm_compute; reflexivity |]. split; [vm_compute; reflexivity |].
  split; [vm_compute; reflexivity |]. split; vm_compute; reflexivity.
Qed.
